(** * TaxoTagger web application: input validation, result assembly and
    the temporary-file life cycle of [app.py], as a shallow embedding.

    Python values are modelled as follows.
    - [str] is [string]; [len] is [String.length]; truthiness of a string is
      being different from the empty string.
    - the [dict] returned by [parse_fasta] is an association list in
      insertion order (iteration order matters to the validator);
    - the [dict]s built by the assembler are [gmap string _]: a key that was
      never assigned is absent from the map;
    - a Python list indexed by position is a [list] read with [!!]; the
      source only uses non-negative indices, and an index past the end is
      the [IndexError] case, written out where the source catches it;
    - [st.error(..)] followed by [st.stop()] ends the script run: the
      outcome [Stopped]. An exception nobody catches is [Raised]. *)

From Stdlib Require Import Ascii String.
From stdpp Require Import base strings list gmap pretty.

(** ** Strings *)

Definition newline : ascii := "010"%char.
Definition delimiter : ascii := ">"%char.

(** [2 * newline], the blank line the messages of the application contain. *)
Definition blank_line : string := String newline (String newline "").

(** [s.split(sep)] for a one-character separator. *)
Fixpoint split_on (sep : ascii) (s : string) : list string :=
  match s with
  | "" => [""]
  | String c rest =>
      if decide (c = sep) then "" :: split_on sep rest
      else match split_on sep rest with
           | [] => [String c ""]
           | field :: fields => String c field :: fields
           end
  end.

(** [s.startswith(">")]. *)
Definition is_header_line (line : string) : bool :=
  match line with
  | String c _ => bool_decide (c = delimiter)
  | "" => false
  end.

(** The header without its leading delimiter character. *)
Definition strip_delimiter (header : string) : string :=
  match header with
  | String c rest => if decide (c = delimiter) then rest else header
  | "" => ""
  end.

(** [str.capitalize()] on ASCII text: first letter upper case, the others
    lower case. *)
Definition is_lower (c : ascii) : bool :=
  let n := nat_of_ascii c in bool_decide (97 ≤ n ≤ 122).
Definition is_upper (c : ascii) : bool :=
  let n := nat_of_ascii c in bool_decide (65 ≤ n ≤ 90).
Definition to_upper (c : ascii) : ascii :=
  if is_lower c then ascii_of_nat (nat_of_ascii c - 32) else c.
Definition to_lower (c : ascii) : ascii :=
  if is_upper c then ascii_of_nat (nat_of_ascii c + 32) else c.
Fixpoint lower (s : string) : string :=
  match s with
  | "" => ""
  | String c rest => String (to_lower c) (lower rest)
  end.
Definition capitalize (s : string) : string :=
  match s with
  | "" => ""
  | String c rest => String (to_upper c) (lower rest)
  end.

(** The last character of a string, if there is one. *)
Fixpoint last_char (s : string) : option ascii :=
  match s with
  | "" => None
  | String c "" => Some c
  | String _ rest => last_char rest
  end.

(** ** The two functions imported from [taxotagger.utils] *)

Module Taxotagger.

(** Python's insertion-ordered [dict] from header to sequence. *)
Definition fasta_dict : Type := list (string * string).

(** Modelled from the spec: part of [parse_fasta]. A sequence line is
    concatenated to the sequence of the record that is open; a line before
    the first header belongs to no record. *)
Fixpoint append_sequence (d : fasta_dict) (line : string) : fasta_dict :=
  match d with
  | [] => []
  | [(header, sequence)] => [(header, sequence +:+ line)]
  | record :: records => record :: append_sequence records line
  end.

(** Modelled from the spec: part of [parse_fasta]. The text of the
    [ValueError] ([e.args[0]] in the application); the specification does
    not give its wording, and no property below depends on it. *)
Definition duplicate_header_message (header : string) : string :=
  "Duplicate header found: " +:+ header.

(** Modelled from the spec: part of [parse_fasta]. The lines are read in
    order; a header line opens a record, unless the mapping has that header
    already, which is the failure. *)
Fixpoint parse_fasta_lines (lines : list string) (header_seq_dict : fasta_dict)
  : string + fasta_dict :=
  match lines with
  | [] => inr header_seq_dict
  | line :: rest =>
      if is_header_line line then
        if decide (line ∈ header_seq_dict.*1)
        then inl (duplicate_header_message line)
        else parse_fasta_lines rest (header_seq_dict ++ [(line, "")])
      else parse_fasta_lines rest (append_sequence header_seq_dict line)
  end.

(** Modelled from the spec: [taxotagger.utils.parse_fasta] is imported by
    [app.py] and is not part of the sources. The specification says that
    it parses the raw text into a mapping from header to sequence
    content, a record being a header line that starts with the delimiter
    followed by sequence lines that are concatenated, and that it fails
    (a [ValueError], the left injection here) when two headers are
    identical. The wording of the failure is the library's. *)
Definition parse_fasta (fasta_content : string) : string + fasta_dict :=
  parse_fasta_lines (split_on newline fasta_content) [].

(** Modelled from the spec: [taxotagger.utils.parse_unite_fasta_header]
    is imported by [app.py] and is not part of the sources. The
    specification says that it strips the leading delimiter and splits the
    header on whitespace, the sequence identifier being the first token.
    The specification lets a header made of the delimiter alone reach the
    malformed-header check, which comes after the identifiers are read:
    such a header has the empty identifier. *)
Definition parse_unite_fasta_header (header : string) : list string :=
  match String.words (strip_delimiter header) with
  | [] => [""]
  | tokens => tokens
  end.

(** No character of [token] is whitespace. *)
Fixpoint no_space (token : string) : bool :=
  match token with
  | "" => true
  | String c rest => negb (Ascii.is_space c) && no_space rest
  end.

(** The header lines of a text, in the order they are met. *)
Definition header_lines (fasta_content : string) : list string :=
  List.filter is_header_line (split_on newline fasta_content).

(** The identifier the application reads off a header. *)
Definition seq_id_of (header : string) : string :=
  default "" (parse_unite_fasta_header header !! 0).

End Taxotagger.

(** ** The input validator: [validate_input] *)

Inductive exception : Type :=
  | IndexError
  | KeyError (key : string).

(** The four ways the validator refuses an input; [ParseError] carries the
    text of the [ValueError] of [parse_fasta]. *)
Inductive ValidationError : Type :=
  | ParseError (detail : string)
  | DuplicateIdentifierError (seq_id : string)
  | MalformedHeaderError
  | TooManyRecordsError.

(** The text handed to [st.error]. *)
Definition st_error_text (e : ValidationError) : string :=
  match e with
  | ParseError detail =>
      detail +:+ blank_line +:+ "Please ensure all FASTA headers are unique."
  | DuplicateIdentifierError seq_id =>
      "Duplicate sequence ID found: `" +:+ seq_id +:+ "`" +:+ blank_line
      +:+ "Please ensure all sequence IDs are unique."
  | MalformedHeaderError =>
      "Invalid FASTA header(s) found. Please ensure that each header starts with '>' plus at least one more non-empty character."
  | TooManyRecordsError =>
      "Please limit the number of sequences to 100 or fewer."
  end.

(** Outcome of a piece of the script. *)
Inductive script (A : Type) : Type :=
  | Continue (a : A)
  | Stopped (e : ValidationError)
  | Raised (x : exception).
Global Arguments Continue {A} a.
Global Arguments Stopped {A} e.
Global Arguments Raised {A} x.

Global Instance script_ret : MRet script := λ A a, Continue a.
Global Instance script_bind : MBind script := λ A B k m,
  match m with
  | Continue a => k a
  | Stopped e => Stopped e
  | Raised x => Raised x
  end.

(** What a successful validation leaves behind: the grey line under the
    input box and the two entries of [st.session_state]. *)
Record Accepted : Type := {
  notice : string;
  seq_ids : list string;
  fasta_content : string;
}.

Definition accepted_notice (num_seqs : nat) : string :=
  "<p style='font-size: smaller; color: gray;'>You provided "
  +:+ pretty num_seqs +:+ " valid sequences (max: 100)</p>".

(** [len(header) > 1]. *)
Definition is_valid_header (header : string) : bool :=
  bool_decide (1 < String.length header).

Section Validator.

(** [from taxotagger.utils import parse_fasta, parse_unite_fasta_header] *)
Variable parse_fasta : string → string + list (string * string).
Variable parse_unite_fasta_header : string → list string.

(** [headers] reduce, one by one, to the identifiers [ids]. *)
Definition reduce_to (headers ids : list string) : Prop :=
  Forall2 (λ header seq_id, parse_unite_fasta_header header !! 0 = Some seq_id)
          headers ids.

(** The first loop of [validate_input]: [seq_ids] grows by one identifier
    per header, and the first identifier met again stops the script. *)
Fixpoint collect_seq_ids (headers : list string) (seq_ids : list string)
  : script (list string) :=
  match headers with
  | [] => Continue seq_ids
  | header :: rest =>
      match parse_unite_fasta_header header !! 0 with
      | None => Raised IndexError
      | Some seq_id =>
          if decide (seq_id ∈ seq_ids)
          then Stopped (DuplicateIdentifierError seq_id)
          else collect_seq_ids rest (seq_ids ++ [seq_id])
      end
  end.

(** The second loop: the number of headers longer than one character. *)
Fixpoint count_valid_headers (headers : list string) (num_valid_headers : nat)
  : nat :=
  match headers with
  | [] => num_valid_headers
  | header :: rest =>
      count_valid_headers rest
        (if is_valid_header header then num_valid_headers + 1
         else num_valid_headers)
  end.

Definition validate_input (fasta_content : string) : script Accepted :=
  header_seq_dict ←
    match parse_fasta fasta_content with
    | inl detail => Stopped (ParseError detail)
    | inr header_seq_dict => Continue header_seq_dict
    end ;
  seq_ids ← collect_seq_ids header_seq_dict.*1 [] ;
  let num_seqs := length header_seq_dict in
  let num_valid_headers := count_valid_headers header_seq_dict.*1 0 in
  if decide (num_valid_headers ≠ num_seqs) then Stopped MalformedHeaderError
  else if decide (100 < num_seqs) then Stopped TooManyRecordsError
  else Continue {| notice := accepted_notice num_seqs;
                   seq_ids := seq_ids;
                   fasta_content := fasta_content |}.

End Validator.

(** The validator as the application runs it, on the library functions. *)
Definition validate (fasta_content : string) : script Accepted :=
  validate_input Taxotagger.parse_fasta Taxotagger.parse_unite_fasta_header
    fasta_content.

(** ** The result assembler: the body of the run button after the search *)

(** Monadic left fold: a [for] loop whose body may raise. *)
Fixpoint foldM {A B} (f : B → A → script B) (b : B) (l : list A) : script B :=
  match l with
  | [] => Continue b
  | x :: rest => b' ← f b x; foldM f b' rest
  end.

(** The computation returns a value or raises [x]. *)
Definition returns_or_raises {A} (x : exception) (m : script A) : Prop :=
  (∃ a, m = Continue a) ∨ m = Raised x.

(** A widget the script shows. *)
Inductive widget : Type :=
  | StError (text : string)
  | StWarning (text : string)
  | StWrite (text : string).

Definition no_match_found : string := "No match found".

Section Assembler.

(** The engine's score is a Python float; the assembler only stores it. *)
Variable Score : Type.

(** [from taxotagger.defaults import TAXONOMY_LEVELS] *)
Variable TAXONOMY_LEVELS : list string.

(** One match of the engine: [{"id": .., "distance": .., "entity": {..}}].
    The application tests ["id" in result], so the key may be absent. *)
Record Match : Type := {
  m_id : option string;
  m_distance : Score;
  m_entity : gmap string string;
}.

(** [results]: level, then input sequence, then rank. *)
Definition SearchResults : Type := gmap string (list (list Match)).

(** A value stored in a result record. *)
Inductive cell : Type :=
  | Str (s : string)
  | Int (n : nat)
  | Float (x : Score).

(** A result record: a Python [dict] from column name to value. *)
Definition Result : Type := gmap string cell.

(** [results[level][i][j]], when all three lookups succeed. *)
Definition slot (results : SearchResults) (level : string) (i j : nat)
  : option Match :=
  match results !! level with
  | None => None
  | Some per_seq => per_seq !! i ≫= (.!! j)
  end.

(** What the engine promises: a list of per-sequence match lists for
    every taxonomy level, every match carrying an identifier. *)
Definition engine_contract (results : SearchResults) : Prop :=
  ∀ level, level ∈ TAXONOMY_LEVELS →
    ∃ per_seq, results !! level = Some per_seq
               ∧ Forall (Forall (λ match_, is_Some (m_id match_))) per_seq.

Definition hit_key (level_cap : string) : string := level_cap +:+ "_Hit".
Definition similarity_key (level_cap : string) : string :=
  level_cap +:+ "_Similarity".

Definition mismatch_text (num_ids num_results : nat) : string :=
  "Mismatch between number of input sequences (" +:+ pretty num_ids
  +:+ ") and results (" +:+ pretty num_results
  +:+ "). Some sequences may not have been processed.".

(** The identifiers carried by the matches of one level. *)
Definition ids_of_level (per_seq : list (list Match)) : gset string :=
  list_to_set (omap m_id (concat per_seq)).

(** The three nested loops that fill [processed_ids]. *)
Definition collect_processed_ids (results : SearchResults)
  : script (gset string) :=
  foldM (λ processed_ids level,
           match results !! level with
           | None => Raised (KeyError level)
           | Some per_seq => Continue (processed_ids ∪ ids_of_level per_seq)
           end) ∅ TAXONOMY_LEVELS.

(** Lines 184-201: the widgets shown by the count check. The order in
    which Python walks the set [unprocessed_ids] is not specified; the
    model lists it with [elements]. *)
Definition check_counts (results : SearchResults) (seq_ids : list string)
  : script (list widget) :=
  match TAXONOMY_LEVELS !! 0 with
  | None => Raised IndexError
  | Some first_level =>
      match results !! first_level with
      | None => Raised (KeyError first_level)
      | Some per_seq =>
          if decide (length per_seq ≠ length seq_ids) then
            processed_ids ← collect_processed_ids results;
            let unprocessed_ids : gset string :=
              list_to_set seq_ids ∖ processed_ids in
            Continue
              (StError (mismatch_text (length seq_ids) (length per_seq))
               :: if decide (unprocessed_ids = ∅) then []
                  else StWarning "The following sequences were not processed:"
                       :: ((λ unprocessed_id, StWrite ("- " +:+ unprocessed_id))
                             <$> elements unprocessed_ids))
          else Continue []
      end
  end.

(** The body of [for level in TAXONOMY_LEVELS] at position [i], rank [j]. *)
Definition assemble_level (results : SearchResults) (i j : nat)
    (result : Result) (level : string) : script Result :=
  let level_cap := capitalize level in
  match results !! level with
  | None => Raised (KeyError level)
  | Some per_seq =>
      match per_seq !! i ≫= (.!! j) with
      | None => (* except IndexError *)
          Continue (<[level_cap := Str no_match_found]> result)
      | Some match_ =>
          let value := default "" (m_entity match_ !! level) in
          if decide (value ≠ "") then
            match m_id match_ with
            | None => Raised (KeyError "id")
            | Some hit =>
                Continue
                  (<[similarity_key level_cap := Float (m_distance match_)]>
                     (<[hit_key level_cap := Str hit]>
                        (<[level_cap := Str value]> result)))
            end
          else
            Continue
              (<[similarity_key level_cap := Str ""]>
                 (<[hit_key level_cap := Str ""]>
                    (<[level_cap := Str ""]> result)))
      end
  end.

(** The columns a level writes. *)
Definition level_keys (level : string) : list string :=
  [capitalize level; hit_key (capitalize level);
   similarity_key (capitalize level)].

(** What one level leaves in the record [after], given the slot that was
    read and the record [before] the level was handled. *)
Definition level_recorded (found : option Match) (level : string)
    (before after : Result) : Prop :=
  let level_cap := capitalize level in
  match found with
  | None =>
      after !! level_cap = Some (Str no_match_found)
      ∧ after !! hit_key level_cap = before !! hit_key level_cap
      ∧ after !! similarity_key level_cap = before !! similarity_key level_cap
  | Some match_ =>
      let value := default "" (m_entity match_ !! level) in
      if decide (value ≠ "") then
        after !! level_cap = Some (Str value)
        ∧ after !! hit_key level_cap = Str <$> m_id match_
        ∧ after !! similarity_key level_cap = Some (Float (m_distance match_))
      else
        after !! level_cap = Some (Str "")
        ∧ after !! hit_key level_cap = Some (Str "")
        ∧ after !! similarity_key level_cap = Some (Str "")
  end.

(** The record for input position [i] and rank [j]. *)
Definition assemble_record (results : SearchResults) (seq_id : string)
    (i j : nat) : script Result :=
  foldM (assemble_level results i j)
        (<["Rank" := Int (j + 1)]> (<["Sequence_ID" := Str seq_id]> ∅))
        TAXONOMY_LEVELS.

(** [for i, seq_id in enumerate(seq_ids)], from position [i] on. *)
Fixpoint assemble_from (results : SearchResults) (top_n : nat) (i : nat)
    (seq_ids : list string) (results_by_seq : gmap string (list Result))
  : script (gmap string (list Result)) :=
  match seq_ids with
  | [] => Continue results_by_seq
  | seq_id :: rest =>
      records ← mapM (assemble_record results seq_id i) (seq 0 top_n);
      assemble_from results top_n (S i) rest
        (<[seq_id := records]> results_by_seq)
  end.

(** Lines 203-228. *)
Definition assemble (results : SearchResults) (seq_ids : list string)
    (top_n : nat) : script (gmap string (list Result)) :=
  assemble_from results top_n 0 seq_ids ∅.

(** Lines 184-228: the widgets of the count check, then the table that is
    stored in the session. *)
Definition report_and_assemble (results : SearchResults)
    (seq_ids : list string) (top_n : nat)
  : script (list widget * gmap string (list Result)) :=
  shown ← check_counts results seq_ids;
  results_by_seq ← assemble results seq_ids top_n;
  Continue (shown, results_by_seq).

End Assembler.

Global Arguments slot {Score} results level i j.
Global Arguments engine_contract {Score} TAXONOMY_LEVELS results.
Global Arguments ids_of_level {Score} per_seq.
Global Arguments collect_processed_ids {Score} TAXONOMY_LEVELS results.
Global Arguments check_counts {Score} TAXONOMY_LEVELS results seq_ids.
Global Arguments assemble_level {Score} results i j result level.
Global Arguments level_recorded {Score} found level before after.
Global Arguments assemble_record {Score} TAXONOMY_LEVELS results seq_id i j.
Global Arguments assemble_from {Score} TAXONOMY_LEVELS results top_n i seq_ids results_by_seq.
Global Arguments assemble {Score} TAXONOMY_LEVELS results seq_ids top_n.
Global Arguments report_and_assemble {Score} TAXONOMY_LEVELS results seq_ids top_n.
Global Arguments m_id {Score} _.
Global Arguments m_distance {Score} _.
Global Arguments m_entity {Score} _.
Global Arguments Str {Score} s.
Global Arguments Int {Score} n.
Global Arguments Float {Score} x.

(** ** The temporary file around the search: [process_fasta_and_run] *)

Inductive file_event : Type :=
  | Created (path : string)
  | Written (path data : string)
  | Flushed (path : string)
  | Searched (path : string) (on_disk : option string)
  | Unlinked (path : string)
  | Closed (path : string).

(** The file system, the buffer of the open temporary file and what
    happened so far. *)
Record World : Type := {
  files : gmap string string;
  buffer : string;
  trace : list file_event;
}.

Section TempFile.

(** What [tt.search] returns and what it raises. *)
Variable Results : Type.
Variable EngineFailure : Type.

(** The engine: it is handed the file system and the path, and returns
    the file system it leaves with matches or a failure. *)
Variable search : gmap string string → string → string * nat →
                  gmap string string * (EngineFailure + Results).

(** The name [tempfile.NamedTemporaryFile] picks. *)
Variable temp_name : gmap string string → string.

Inductive failure : Type :=
  | EngineRaised (e : EngineFailure)
  | FileNotFoundError (path : string).

Definition io (A : Type) : Type := World → World * (failure + A).

Definition io_ret {A} (a : A) : io A := λ w, (w, inr a).
Definition io_bind {A B} (m : io A) (k : A → io B) : io B := λ w,
  match m w with
  | (w', inr a) => k a w'
  | (w', inl x) => (w', inl x)
  end.

(** [try: body finally: cleanup]: the cleanup runs on both exits of the
    body; an exception of the cleanup replaces the outcome of the body. *)
Definition try_finally {A} (body : io A) (cleanup : io unit) : io A := λ w,
  let '(w1, outcome) := body w in
  match cleanup w1 with
  | (w2, inr _) => (w2, outcome)
  | (w2, inl x) => (w2, inl x)
  end.

Definition log (e : file_event) (w : World) : World :=
  {| files := files w; buffer := buffer w; trace := trace w ++ [e] |}.

(** [NamedTemporaryFile(mode="w+", delete=False, suffix=".fasta")]. *)
Definition named_temporary_file : io string := λ w,
  let name := temp_name (files w) in
  (log (Created name)
     {| files := <[name := ""]> (files w); buffer := ""; trace := trace w |},
   inr name).

Definition write (name data : string) : io unit := λ w,
  (log (Written name data)
     {| files := files w; buffer := buffer w +:+ data; trace := trace w |},
   inr ()).

Definition flush (name : string) : io unit := λ w,
  (log (Flushed name)
     {| files := alter (λ on_disk, on_disk +:+ buffer w) name (files w);
        buffer := ""; trace := trace w |},
   inr ()).

Definition tt_search (name : string) (settings : string * nat) : io Results :=
  λ w,
  let '(files', outcome) := search (files w) name settings in
  (log (Searched name (files w !! name))
     {| files := files'; buffer := buffer w; trace := trace w |},
   match outcome with
   | inl e => inl (EngineRaised e)
   | inr results => inr results
   end).

(** [os.unlink(name)]. *)
Definition unlink (name : string) : io unit := λ w,
  match files w !! name with
  | None => (w, inl (FileNotFoundError name))
  | Some _ =>
      (log (Unlinked name)
         {| files := delete name (files w); buffer := buffer w;
            trace := trace w |},
       inr ())
  end.

(** Leaving the [with] block closes the file object, on every exit. *)
Definition close (name : string) : io unit := λ w,
  (log (Closed name) w, inr ()).

Definition process_fasta_and_run (fasta_content : string)
    (settings : string * nat) : io Results :=
  io_bind named_temporary_file (λ temp_fasta,
    try_finally
      (io_bind (write temp_fasta fasta_content) (λ _,
       io_bind (flush temp_fasta) (λ _,
         try_finally (tt_search temp_fasta settings) (unlink temp_fasta))))
      (close temp_fasta)).

End TempFile.

Global Arguments EngineRaised {EngineFailure} e.
Global Arguments FileNotFoundError {EngineFailure} path.

(** ** The page: input, run button and display (lines 90-124, 175-231) *)

(** What the visitor entered: text in the text area, or uploaded files
    (their decoded contents, in the order of the uploader). *)
Inductive user_input : Type :=
  | EnterText (fasta_content : string)
  | UploadFiles (uploaded_files : list string).

(** Lines 117-121: [fasta_content] starts empty and every file is appended
    with a newline after it. *)
Definition join_uploads (uploaded_files : list string) : string :=
  foldl (λ fasta_content file, fasta_content +:+ (file +:+ String newline ""))
        "" uploaded_files.

(** [st.session_state], for the keys the script both writes and tests:
    an absent key is [None]. The keys ["selected_model"] and ["top_n"] are
    written from their widgets in every run before they are read, and are
    arguments of the run button below. *)
Record session_state (Score : Type) : Type := {
  st_seq_ids : option (list string);
  st_fasta_content : option string;
  st_results_by_seq : option (gmap string (list (gmap string (cell Score))));
}.
Global Arguments st_seq_ids {Score} _.
Global Arguments st_fasta_content {Score} _.
Global Arguments st_results_by_seq {Score} _.

(** [st.session_state.clear()]. *)
Definition clear_session {Score} : session_state Score :=
  {| st_seq_ids := None; st_fasta_content := None; st_results_by_seq := None |}.

(** The last two lines of [validate_input]. *)
Definition store_accepted {Score} (accepted : Accepted)
    (session : session_state Score) : session_state Score :=
  {| st_seq_ids := Some (seq_ids accepted);
     st_fasta_content := Some (fasta_content accepted);
     st_results_by_seq := st_results_by_seq session |}.

(** How far a run of the script got. *)
Inductive page_outcome (Score EngineFailure : Type) : Type :=
  | Halted (e : ValidationError)
  | NeedInput
  | SearchRaised (x : failure EngineFailure)
  | ScriptRaised (x : exception)
  | Rendered (shown : list widget)
      (displayed : option (gmap string (list (gmap string (cell Score))))).
Global Arguments Halted {Score EngineFailure} e.
Global Arguments NeedInput {Score EngineFailure}.
Global Arguments SearchRaised {Score EngineFailure} x.
Global Arguments ScriptRaised {Score EngineFailure} x.
Global Arguments Rendered {Score EngineFailure} shown displayed.

(** The text of the error of the run button when nothing was validated. *)
Definition need_input_text : string :=
  "Please provide FASTA input before running the analysis.".

(** The keys of a [dict] filled by assigning the keys [keys] in order: a
    key keeps the place of its first assignment. *)
Fixpoint insertion_order (seen keys : list string) : list string :=
  match keys with
  | [] => []
  | key :: rest =>
      if decide (key ∈ seen) then insertion_order seen rest
      else key :: insertion_order (key :: seen) rest
  end.

(** Lines 263-265: the rows of the export, for the table built from
    [seq_ids] in the same run: the record lists of the identifiers, in the
    order of the keys of [results_by_seq]. *)
Definition combined_results {Score} (seq_ids : list string)
    (results_by_seq : gmap string (list (gmap string (cell Score))))
  : list (gmap string (cell Score)) :=
  insertion_order [] seq_ids ≫= (λ seq_id, default [] (results_by_seq !! seq_id)).

Section Page.

Context {Score EngineFailure : Type}.

Variable parse_fasta : string → string + list (string * string).
Variable parse_unite_fasta_header : string → list string.
Variable TAXONOMY_LEVELS : list string.
Variable search : gmap string string → string → string * nat →
                  gmap string string
                  * (EngineFailure + gmap string (list (list (Match Score)))).
Variable temp_name : gmap string string → string.

(** Lines 99-124: a non-empty input is validated, an empty one clears the
    session. A validation that stops leaves the session as it was. *)
Definition input_stage (input : user_input) (session : session_state Score)
  : script (session_state Score) :=
  match input with
  | EnterText fasta_content =>
      if decide (fasta_content = "") then Continue clear_session
      else
        accepted ← validate_input parse_fasta parse_unite_fasta_header
                     fasta_content;
        Continue (store_accepted accepted session)
  | UploadFiles uploaded_files =>
      if decide (uploaded_files = []) then Continue clear_session
      else
        accepted ← validate_input parse_fasta parse_unite_fasta_header
                     (join_uploads uploaded_files);
        Continue (store_accepted accepted session)
  end.

(** Lines 176-228: the body of [if st.button(..)]. The session after it and
    the world go with the outcome. *)
Definition run_button (selected_model : string) (top_n : nat)
    (session : session_state Score) (w : World)
  : session_state Score * World * page_outcome Score EngineFailure :=
  match st_fasta_content session with
  | None => (session, w, NeedInput)
  | Some fasta_content =>
      match process_fasta_and_run _ EngineFailure search temp_name
              fasta_content (selected_model, top_n) w with
      | (w', inl x) => (session, w', SearchRaised x)
      | (w', inr results) =>
          match st_seq_ids session with
          | None => (session, w', ScriptRaised (KeyError "seq_ids"))
          | Some seq_ids =>
              match report_and_assemble TAXONOMY_LEVELS results seq_ids top_n with
              | Continue (shown, results_by_seq) =>
                  let session' :=
                    {| st_seq_ids := st_seq_ids session;
                       st_fasta_content := st_fasta_content session;
                       st_results_by_seq := Some results_by_seq |} in
                  (session', w', Rendered shown (Some results_by_seq))
              | Stopped e => (session, w', Halted e)
              | Raised x => (session, w', ScriptRaised x)
              end
          end
      end
  end.

(** One run of the script: the input, then the button when it was clicked,
    then the display of whatever table the session holds. A change of the
    input method clears the session before the run ([on_change]): that
    run starts from [clear_session]. *)
Definition rerun (input : user_input) (clicked : bool)
    (selected_model : string) (top_n : nat)
    (session : session_state Score) (w : World)
  : session_state Score * World * page_outcome Score EngineFailure :=
  match input_stage input session with
  | Stopped e => (session, w, Halted e)
  | Raised x => (session, w, ScriptRaised x)
  | Continue session1 =>
      if clicked then run_button selected_model top_n session1 w
      else (session1, w, Rendered [] (st_results_by_seq session1))
  end.

(** The session holds nothing, or a text that passed validation together
    with the identifiers validation gave it. *)
Definition session_valid (session : session_state Score) : Prop :=
  match st_fasta_content session, st_seq_ids session with
  | Some fasta_content, Some ids =>
      ∃ accepted,
        validate_input parse_fasta parse_unite_fasta_header fasta_content
        = Continue accepted
        ∧ ids = seq_ids accepted
  | None, None => True
  | _, _ => False
  end.

End Page.

(** ** Sample inputs *)

(** One record, [">s<i>"] followed by one sequence line. *)
Definition fasta_record (i : nat) : string :=
  String delimiter ("s" +:+ pretty i) +:+ String newline ("ACGT" +:+ String newline "").

(** A text of [n] records with the headers [">s0"], [">s1"], ... *)
Definition sample_fasta (n : nat) : string :=
  foldr String.app "" (fasta_record <$> seq 0 n).

(** The taxonomy levels of the library, and an engine answer for one input
    sequence with a single match per level. Scores are in thousandths. The
    match has a phylum, an empty genus and no value for the other levels. *)
Definition sample_levels : list string :=
  ["phylum"; "class"; "order"; "family"; "genus"; "species"].

Definition sample_match : Match nat :=
  {| m_id := Some "KY106088";
     m_distance := 987;
     m_entity := <["genus" := ""]> {["phylum" := "Ascomycota"]} |}.

Definition sample_results : gmap string (list (list (Match nat))) :=
  list_to_map ((λ level, (level, [[sample_match]])) <$> sample_levels).

(** An engine that is down: it leaves the files alone and raises. *)
Definition failing_search (on_disk : gmap string string) (path : string)
    (settings : string * nat) : gmap string string * (string + unit) :=
  (on_disk, inl "engine unavailable").

(** An engine that removes the file it was given before it raises. *)
Definition greedy_search (on_disk : gmap string string) (path : string)
    (settings : string * nat) : gmap string string * (string + unit) :=
  (delete path on_disk, inl "engine unavailable").

Definition sample_temp_name (on_disk : gmap string string) : string :=
  "/tmp/tmp0.fasta".

Definition empty_world : World := {| files := ∅; buffer := ""; trace := [] |}.

(** A header parser that splits on whitespace and nothing more: it returns
    no token for a header made of the delimiter alone. *)
Definition split_header (header : string) : list string :=
  String.words (strip_delimiter header).

(** The text a visitor's input is validated as. *)
Definition input_text (input : user_input) : string :=
  match input with
  | EnterText fasta_content => fasta_content
  | UploadFiles uploaded_files => join_uploads uploaded_files
  end.

(** A match without identifier, and an engine answer made of it. *)
Definition anonymous_match : Match nat :=
  {| m_id := None; m_distance := 500;
     m_entity := {["phylum" := "Ascomycota"]} |}.

Definition anonymous_results : gmap string (list (list (Match nat))) :=
  list_to_map ((λ level, (level, [[anonymous_match]])) <$> sample_levels).

(** An engine that returns an answer after it removed the file. *)
Definition careless_search (on_disk : gmap string string) (path : string)
    (settings : string * nat) : gmap string string * (string + unit) :=
  (delete path on_disk, inr ()).

(** The visitor entered something: text, or at least one file. *)
Definition input_given (input : user_input) : Prop :=
  match input with
  | EnterText fasta_content => fasta_content ≠ ""
  | UploadFiles uploaded_files => uploaded_files ≠ []
  end.

(** The computation does not end in [st.stop()]. *)
Definition never_stopped {A} (m : script A) : Prop := ∀ e, m ≠ Stopped e.

(** An engine that leaves the files alone and answers [sample_results]. *)
Definition sample_search (on_disk : gmap string string) (path : string)
    (settings : string * nat)
  : gmap string string * (string + gmap string (list (list (Match nat)))) :=
  (on_disk, inr sample_results).

(** The page with the library model, the sample levels and that engine. *)
Definition sample_rerun (input : user_input) (clicked : bool)
    (session : session_state nat) (w : World)
  : session_state nat * World * page_outcome nat string :=
  rerun Taxotagger.parse_fasta Taxotagger.parse_unite_fasta_header
    sample_levels sample_search sample_temp_name input clicked "model" 2
    session w.

(** * Properties *)

Lemma app_cons (c : ascii) (s t : string) : String c s +:+ t = String c (s +:+ t).
Proof. reflexivity. Qed.

Lemma app_length (s t : string) :
  String.length (s +:+ t) = String.length s + String.length t.
Proof. induction s as [|c s IH]; [done|]. rewrite app_cons. simpl. by rewrite IH. Qed.

Lemma app_inj_r (a b s : string) : a +:+ s = b +:+ s → a = b.
Proof.
  revert b. induction a as [|c a IH]; intros [|c' b] Heq; [done| | |].
  - apply (f_equal String.length) in Heq. rewrite ?app_length in Heq. simpl in Heq. lia.
  - apply (f_equal String.length) in Heq. rewrite ?app_length in Heq. simpl in Heq. lia.
  - rewrite !app_cons in Heq. injection Heq as -> Heq. f_equal. by apply IH.
Qed.

(** ** The library model: [parse_fasta] keeps the header lines, in order *)

Module TaxotaggerFacts.
Import Taxotagger.

Lemma append_sequence_keys d line : (append_sequence d line).*1 = d.*1.
Proof.
  induction d as [|[h s] d IH]; [done|].
  destruct d as [|r d]; [done|].
  change (append_sequence ((h, s) :: r :: d) line)
    with ((h, s) :: append_sequence (r :: d) line).
  by rewrite !fmap_cons, IH.
Qed.

Lemma parse_fasta_lines_ok lines d :
  NoDup (d.*1 ++ List.filter is_header_line lines) →
  ∃ d', parse_fasta_lines lines d = inr d'
        ∧ d'.*1 = d.*1 ++ List.filter is_header_line lines.
Proof.
  revert d. induction lines as [|line rest IH]; intros d Hnd; simpl in *.
  { exists d. by rewrite app_nil_r. }
  destruct (is_header_line line) eqn:Hline.
  - apply NoDup_app in Hnd as Hparts. destruct Hparts as (_ & Hfresh & _).
    destruct (decide (line ∈ d.*1)) as [Hin|Hnin].
    { exfalso. apply (Hfresh line Hin). left. }
    destruct (IH (d ++ [(line, "")])) as (d' & Hd' & Hkeys).
    { rewrite fmap_app. simpl. by rewrite <- app_assoc. }
    exists d'. split; [done|].
    rewrite Hkeys, fmap_app. simpl. by rewrite <- app_assoc.
  - destruct (IH (append_sequence d line)) as (d' & Hd' & Hkeys).
    { by rewrite append_sequence_keys. }
    exists d'. by rewrite Hd', Hkeys, append_sequence_keys.
Qed.

Lemma parse_fasta_lines_dup lines d :
  NoDup d.*1 →
  ¬ NoDup (d.*1 ++ List.filter is_header_line lines) →
  ∃ header, header ∈ List.filter is_header_line lines
            ∧ parse_fasta_lines lines d = inl (duplicate_header_message header).
Proof.
  revert d. induction lines as [|line rest IH]; intros d Hd Hnd; simpl in *.
  { rewrite app_nil_r in Hnd. done. }
  destruct (is_header_line line) eqn:Hline.
  - destruct (decide (line ∈ d.*1)) as [Hin|Hnin].
    { exists line. split; [left|done]. }
    destruct (IH (d ++ [(line, "")])) as (h & Hh & Hparse).
    { rewrite fmap_app. simpl. apply NoDup_app. split_and!; [done| |].
      - intros x Hx ->%list_elem_of_singleton. done.
      - apply NoDup_singleton. }
    { rewrite fmap_app. simpl. by rewrite <- app_assoc. }
    exists h. split; [by right|done].
  - destruct (IH (append_sequence d line)) as (h & Hh & Hparse).
    { by rewrite append_sequence_keys. }
    { by rewrite append_sequence_keys. }
    exists h. done.
Qed.

(** Unique header lines: the parse succeeds and the mapping has exactly
    the header lines as keys, in the order they were met. *)
Lemma parse_fasta_ok text :
  NoDup (header_lines text) →
  ∃ d, parse_fasta text = inr d ∧ d.*1 = header_lines text.
Proof. intros Hnd. by apply (parse_fasta_lines_ok _ []). Qed.

Lemma parse_fasta_dup text :
  ¬ NoDup (header_lines text) →
  ∃ header, header ∈ header_lines text
            ∧ parse_fasta text = inl (duplicate_header_message header).
Proof. intros Hnd. apply (parse_fasta_lines_dup _ []); [constructor|done]. Qed.

(** The keys of a parsed mapping are header lines of the text. *)
Lemma parse_fasta_keys text d :
  parse_fasta text = inr d → d.*1 = header_lines text ∧ NoDup d.*1.
Proof.
  intros Hparse.
  destruct (decide (NoDup (header_lines text))) as [Hnd|Hnd].
  - destruct (parse_fasta_ok _ Hnd) as (d' & Hd' & Hkeys).
    rewrite Hparse in Hd'. injection Hd' as <-. by rewrite Hkeys.
  - destruct (parse_fasta_dup _ Hnd) as (h & _ & Hh). congruence.
Qed.

Lemma header_line_starts_with_delimiter text header :
  header ∈ header_lines text → is_header_line header = true.
Proof.
  unfold header_lines. rewrite list_elem_of_In, filter_In. tauto.
Qed.

(** The header parser always yields an identifier. *)
Lemma parse_unite_fasta_header_first header :
  parse_unite_fasta_header header !! 0 = Some (seq_id_of header).
Proof.
  unfold seq_id_of, parse_unite_fasta_header.
  by destruct (String.words (strip_delimiter header)).
Qed.

(** *** The identifier is the first whitespace-delimited token *)

Lemma rev_app_rev_app (s t u : string) :
  String.rev_app (String.rev_app s t) u = String.rev_app t (s +:+ u).
Proof.
  revert t u. induction s as [|c s IH]; intros t u; [done|].
  simpl. rewrite IH. simpl. done.
Qed.

Lemma rev_rev_app (s : string) : String.rev (String.rev_app s "") = s +:+ "".
Proof. unfold String.rev. by rewrite rev_app_rev_app. Qed.

Lemma app_empty_r (s : string) : s +:+ "" = s.
Proof. induction s as [|c s IH]; [done|]. by rewrite app_cons, IH. Qed.

(** A token that is being read is completed by the next whitespace
    character, or by the end of the text. *)
Lemma words_go_token (token seen : string) :
  no_space token = true →
  (∀ sp rest, Ascii.is_space sp = true →
     String.words_go (Some seen) (token +:+ String sp rest)
     = String.rev (String.rev_app token seen) :: String.words rest)
  ∧ String.words_go (Some seen) token = [String.rev (String.rev_app token seen)].
Proof.
  revert seen. induction token as [|c token IH]; intros seen Hns.
  { split; [|done]. intros sp rest Hsp. simpl.
    change ("" +:+ String sp rest) with (String sp rest). simpl.
    by rewrite Hsp. }
  simpl in Hns. apply andb_true_iff in Hns as [Hc Hns].
  apply negb_true_iff in Hc.
  destruct (IH (String c seen) Hns) as [IH1 IH2]. split.
  - intros sp rest Hsp. rewrite app_cons. simpl. rewrite Hc. simpl.
    by apply IH1.
  - simpl. rewrite Hc. simpl. apply IH2.
Qed.

(** The identifier of a header [">" token] or [">" token sp rest], where
    [token] is not empty and has no whitespace and [sp] is a whitespace
    character, is [token]. *)
Lemma seq_id_of_first_token (token : string) :
  token ≠ "" → no_space token = true →
  seq_id_of (String delimiter token) = token
  ∧ ∀ sp rest, Ascii.is_space sp = true →
      seq_id_of (String delimiter (token +:+ String sp rest)) = token.
Proof.
  intros Hne Hns. destruct token as [|c token]; [done|].
  simpl in Hns. apply andb_true_iff in Hns as [Hc Hns].
  apply negb_true_iff in Hc.
  destruct (words_go_token token (String c "") Hns) as [Hsp Hend].
  assert (String.rev (String.rev_app token (String c "")) = String c token)
    as Hrev.
  { change (String.rev_app token (String c ""))
      with (String.rev_app (String c token) "").
    by rewrite rev_rev_app, app_empty_r. }
  unfold seq_id_of, parse_unite_fasta_header, strip_delimiter.
  rewrite decide_True by done. split.
  - unfold String.words. simpl. rewrite Hc. simpl. by rewrite Hend, Hrev.
  - intros sp rest Hspace. unfold String.words. rewrite app_cons. simpl.
    rewrite Hc. simpl. by rewrite (Hsp sp rest Hspace), Hrev.
Qed.

End TaxotaggerFacts.

(** ** The validator, for any implementation of the two library functions *)

(** The counter of the second loop is the number of valid headers. *)
Lemma count_valid_headers_filter headers n :
  count_valid_headers headers n
  = n + length (filter (λ header, is_valid_header header) headers).
Proof.
  revert n. induction headers as [|h hs IH]; intros n; simpl; [lia|].
  rewrite IH, filter_cons.
  destruct (is_valid_header h); simpl; try case_decide; simpl in *; try done; lia.
Qed.

Lemma all_valid_iff_count (headers : list string) :
  length (filter (λ header, is_valid_header header) headers) = length headers
  ↔ Forall (λ header, is_valid_header header) headers.
Proof.
  induction headers as [|h hs IH]; [by split; [constructor|]|].
  rewrite filter_cons, Forall_cons. pose proof (length_filter (λ header : string, is_valid_header header) hs).
  case_decide; simpl; [rewrite <- IH; split; [intros [= ?]; done|intros [_ ->]; done]|].
  split; [lia|tauto].
Qed.

Section ValidatorFacts.

Variable parse_fasta : string → string + list (string * string).
Variable parse_unite_fasta_header : string → list string.

Lemma collect_seq_ids_unique headers acc ids :
  reduce_to parse_unite_fasta_header headers ids → NoDup (acc ++ ids) →
  collect_seq_ids parse_unite_fasta_header headers acc = Continue (acc ++ ids).
Proof.
  intros Hred. revert acc.
  induction Hred as [|h t hs ts Ht _ IH]; intros acc Hnd; simpl.
  { by rewrite app_nil_r. }
  rewrite Ht. apply NoDup_app in Hnd as Hparts.
  destruct Hparts as (_ & Hfresh & _).
  destruct (decide (t ∈ acc)) as [Hin|_].
  { exfalso. apply (Hfresh t Hin). left. }
  rewrite (IH (acc ++ [t])); rewrite <- app_assoc; done.
Qed.

Lemma collect_seq_ids_repeated headers acc ids :
  reduce_to parse_unite_fasta_header headers ids → NoDup acc → ¬ NoDup (acc ++ ids) →
  ∃ seen seq_id later,
    ids = seen ++ seq_id :: later ∧ NoDup (acc ++ seen)
    ∧ seq_id ∈ acc ++ seen
    ∧ collect_seq_ids parse_unite_fasta_header headers acc
      = Stopped (DuplicateIdentifierError seq_id).
Proof.
  intros Hred. revert acc.
  induction Hred as [|h t hs ts Ht _ IH]; intros acc Hacc Hnd; simpl.
  { rewrite app_nil_r in Hnd. done. }
  rewrite Ht. destruct (decide (t ∈ acc)) as [Hin|Hnin].
  { exists [], t, ts. rewrite app_nil_r. done. }
  destruct (IH (acc ++ [t])) as (seen & u & later & -> & Hseen & Hu & Hstop).
  { apply NoDup_app. split_and!; [done| |apply NoDup_singleton].
    intros x Hx ->%list_elem_of_singleton. done. }
  { by rewrite <- app_assoc. }
  exists (t :: seen), u, later. rewrite <- app_assoc in Hseen, Hu. done.
Qed.

Lemma collect_seq_ids_Continue headers acc out :
  collect_seq_ids parse_unite_fasta_header headers acc = Continue out →
  ∃ ids, out = acc ++ ids ∧ reduce_to parse_unite_fasta_header headers ids.
Proof.
  revert acc. induction headers as [|h hs IH]; intros acc Hrun; simpl in *.
  { injection Hrun as <-. exists []. by rewrite app_nil_r; split; [|constructor]. }
  destruct (parse_unite_fasta_header h !! 0) as [t|] eqn:Ht; [|done].
  destruct (decide (t ∈ acc)); [done|].
  destruct (IH _ Hrun) as (ids & -> & Hred).
  exists (t :: ids). rewrite <- app_assoc. split; [done|by constructor].
Qed.

(** The four exits of [validate_input], once the parse succeeded and the
    identifiers were collected. *)
Lemma validate_input_after_ids text d ids :
  parse_fasta text = inr d →
  collect_seq_ids parse_unite_fasta_header d.*1 [] = Continue ids →
  validate_input parse_fasta parse_unite_fasta_header text
  = if decide (length (filter (λ header, is_valid_header header) d.*1)
               ≠ length d)
    then Stopped MalformedHeaderError
    else if decide (100 < length d) then Stopped TooManyRecordsError
    else Continue {| notice := accepted_notice (length d);
                     seq_ids := ids; fasta_content := text |}.
Proof.
  intros Hparse Hids. unfold validate_input. rewrite Hparse. simpl.
  rewrite Hids. simpl. by rewrite count_valid_headers_filter.
Qed.

End ValidatorFacts.

(** ** The validator on the library model *)

Section ValidateFacts.
Import Taxotagger TaxotaggerFacts.

Lemma headers_reduce_to (headers : list string) :
  reduce_to parse_unite_fasta_header headers (seq_id_of <$> headers).
Proof.
  induction headers; constructor; [apply parse_unite_fasta_header_first|done].
Qed.

(** Two positions of a list that hold the same value, under a map. *)
Lemma repeated_image {A B} (f : A → B) (l : list A) (seen later : list B) (t : B) :
  f <$> l = seen ++ t :: later → t ∈ seen → NoDup l →
  ∃ a b, a ∈ l ∧ b ∈ l ∧ a ≠ b ∧ f a = t ∧ f b = t.
Proof.
  intros Hmap Hin Hnd.
  apply list_elem_of_split in Hin as (s1 & s2 & ->).
  apply fmap_app_inv in Hmap as (l1 & l2 & Hl1 & Hl2 & ->).
  symmetry in Hl2. apply fmap_cons_inv in Hl2 as (b & l3 & Hb & _ & ->).
  symmetry in Hl1. apply fmap_app_inv in Hl1 as (l4 & l5 & _ & Hl5 & ->).
  symmetry in Hl5. apply fmap_cons_inv in Hl5 as (a & l6 & Ha & _ & ->).
  exists a, b. split_and!; [set_solver|set_solver| |done|done].
  intros ->. rewrite <- app_assoc in Hnd.
  apply NoDup_app in Hnd as (_ & _ & Hnd).
  apply NoDup_cons in Hnd as [Hnd _]. apply Hnd. set_solver.
Qed.

Lemma same_image_breaks_NoDup {A B} (f : A → B) (l : list A) (a b : A) :
  a ∈ l → b ∈ l → a ≠ b → f a = f b → ¬ NoDup (f <$> l).
Proof.
  intros [i Hi]%list_elem_of_lookup [j Hj]%list_elem_of_lookup Hne Heq Hnd.
  assert (i = j) as ->; [|congruence].
  apply (proj1 (NoDup_alt (f <$> l)) Hnd i j (f a));
    rewrite list_lookup_fmap; [by rewrite Hi|by rewrite Hj, Heq].
Qed.

End ValidateFacts.

(** The example of the specification: two records, identifiers [a], [b]. *)
Example validate_two_records :
  seq_ids <$> (match validate (">a" +:+ String newline ("ATGC" +:+ String newline
                                 (">b" +:+ String newline ("CGTA" +:+ String newline ""))))
               with Continue accepted => Some accepted | _ => None end)
  = Some ["a"; "b"].
Proof. vm_compute. reflexivity. Qed.

(** ** Claims about the validator *)

(** C1. A FASTA input whose header lines are pairwise different, are all
    well-formed (the delimiter and at least one more character, as the data
    model asks of a record), reduce to pairwise different identifiers and
    number at most 100 is accepted: no error is shown, and the identifiers
    stored are the first whitespace-delimited tokens of the headers, one
    per header, in the order the headers appear in the text. *)
Theorem validate_accepts_valid_input (text : string) :
  let headers := Taxotagger.header_lines text in
  NoDup headers →
  Forall (λ header, is_valid_header header) headers →
  NoDup (Taxotagger.seq_id_of <$> headers) →
  length headers ≤ 100 →
  validate text
  = Continue {| notice := accepted_notice (length headers);
                seq_ids := Taxotagger.seq_id_of <$> headers;
                fasta_content := text |}.
Proof.
  intros headers Huniq Hvalid Hids Hcap.
  destruct (TaxotaggerFacts.parse_fasta_ok text Huniq) as (d & Hparse & Hkeys).
  unfold validate.
  rewrite (validate_input_after_ids _ _ text d (Taxotagger.seq_id_of <$> headers) Hparse).
  - assert (length d = length headers) as Hlen.
    { by rewrite <- (length_fmap fst d), Hkeys. }
    rewrite Hkeys, Hlen.
    rewrite decide_False; [|intros Hne; apply Hne, all_valid_iff_count, Hvalid].
    rewrite decide_False; [done|lia].
  - rewrite Hkeys.
    apply (collect_seq_ids_unique _ headers [] _ (headers_reduce_to headers) Hids).
Qed.

Lemma validate_accepts_valid_input_witness :
  validate (sample_fasta 2)
  = Continue {| notice := accepted_notice 2;
                seq_ids := ["s0"; "s1"];
                fasta_content := sample_fasta 2 |}.
Proof.
  apply (validate_accepts_valid_input (sample_fasta 2)).
  - apply (bool_decide_unpack _). vm_compute. exact I.
  - apply (bool_decide_unpack _). vm_compute. exact I.
  - apply (bool_decide_unpack _). vm_compute. exact I.
  - vm_compute. lia.
Defined.

(** C3. A header (a line that starts with the delimiter) passes the
    validity check exactly when something is left of it once the
    delimiter is stripped; and when the validator reaches the check, a
    number of valid headers different from the number of parsed records
    stops it with the malformed-header error, whatever the number of
    records is: the cap is not looked at. *)
Theorem malformed_header_check
    (parse_fasta : string → string + list (string * string))
    (parse_unite_fasta_header : string → list string)
    (text : string) (d : list (string * string)) (ids : list string) :
  parse_fasta text = inr d →
  collect_seq_ids parse_unite_fasta_header d.*1 [] = Continue ids →
  (∀ header, is_header_line header = true →
     (is_valid_header header = true ↔ strip_delimiter header ≠ ""))
  ∧ (length (filter (λ header, is_valid_header header) d.*1) ≠ length d →
     validate_input parse_fasta parse_unite_fasta_header text
     = Stopped MalformedHeaderError).
Proof.
  intros Hparse Hids. split.
  - intros [|c rest] Hline; [done|]. simpl in Hline.
    apply bool_decide_eq_true in Hline as ->.
    unfold is_valid_header, strip_delimiter. rewrite decide_True by done.
    rewrite bool_decide_eq_true. simpl.
    destruct rest; simpl; split; (done || lia).
  - intros Hcount.
    rewrite (validate_input_after_ids _ _ text d ids Hparse Hids).
    by rewrite decide_True.
Qed.

Lemma malformed_header_check_witness :
  (is_valid_header ">" = true ↔ strip_delimiter ">" ≠ "")
  ∧ (is_valid_header ">s0" = true ↔ strip_delimiter ">s0" ≠ "")
  ∧ validate (">" +:+ String newline (sample_fasta 101))
    = Stopped MalformedHeaderError.
Proof.
  pose (text := ">" +:+ String newline (sample_fasta 101)).
  destruct (Taxotagger.parse_fasta text) as [e|d] eqn:Hparse;
    [vm_compute in Hparse; discriminate|].
  destruct (collect_seq_ids Taxotagger.parse_unite_fasta_header d.*1 [])
    as [ids|e|x] eqn:Hids.
  - destruct (malformed_header_check _ _ text d ids Hparse Hids) as [Hvalid Hstop].
    split_and!; [by apply Hvalid|by apply Hvalid|].
    apply Hstop. vm_compute in Hparse. injection Hparse as <-.
    vm_compute. lia.
  - vm_compute in Hparse. injection Hparse as <-. vm_compute in Hids. discriminate.
  - vm_compute in Hparse. injection Hparse as <-. vm_compute in Hids. discriminate.
Defined.

(** C6. When the headers of an input are pairwise different and two of
    them reduce to the same first token, the validator stops with the
    duplicate-identifier error. The identifier it names is one that two
    different headers share; when only one identifier is shared, it is
    that one. The message shown quotes the identifier. *)
Theorem duplicate_identifier_detected (text h1 h2 : string) :
  let headers := Taxotagger.header_lines text in
  NoDup headers →
  h1 ∈ headers → h2 ∈ headers → h1 ≠ h2 →
  Taxotagger.seq_id_of h1 = Taxotagger.seq_id_of h2 →
  ∃ seq_id,
    validate text = Stopped (DuplicateIdentifierError seq_id)
    ∧ (∃ a b, a ∈ headers ∧ b ∈ headers ∧ a ≠ b
              ∧ Taxotagger.seq_id_of a = seq_id
              ∧ Taxotagger.seq_id_of b = seq_id)
    ∧ ((∀ a b, a ∈ headers → b ∈ headers → a ≠ b →
               Taxotagger.seq_id_of a = Taxotagger.seq_id_of b →
               Taxotagger.seq_id_of a = Taxotagger.seq_id_of h1) →
       seq_id = Taxotagger.seq_id_of h1)
    ∧ st_error_text (DuplicateIdentifierError seq_id)
      = "Duplicate sequence ID found: `" +:+ seq_id +:+ "`" +:+ blank_line
        +:+ "Please ensure all sequence IDs are unique.".
Proof.
  intros headers Huniq Hh1 Hh2 Hne Hsame.
  destruct (TaxotaggerFacts.parse_fasta_ok text Huniq) as (d & Hparse & Hkeys).
  destruct (collect_seq_ids_repeated Taxotagger.parse_unite_fasta_header
              headers [] (Taxotagger.seq_id_of <$> headers))
    as (seen & t & later & Hsplit & _ & Ht & Hstop).
  { apply headers_reduce_to. }
  { constructor. }
  { by apply (same_image_breaks_NoDup _ _ h1 h2). }
  destruct (repeated_image _ _ _ _ _ Hsplit Ht Huniq)
    as (a & b & Ha & Hb & Hab & Hfa & Hfb).
  exists t. split_and!.
  - unfold validate, validate_input. rewrite Hparse. simpl.
    fold headers in Hkeys. rewrite Hkeys, Hstop. done.
  - by exists a, b.
  - intros Honly. rewrite <- Hfa. apply (Honly a b); congruence.
  - done.
Qed.

Lemma duplicate_identifier_detected_witness :
  validate (">KY1 Fungi" +:+ String newline (">KY1 Metazoa" +:+ String newline "ACGT"))
  = Stopped (DuplicateIdentifierError "KY1").
Proof.
  destruct (duplicate_identifier_detected
              (">KY1 Fungi" +:+ String newline (">KY1 Metazoa" +:+ String newline "ACGT"))
              ">KY1 Fungi" ">KY1 Metazoa")
    as (seq_id & Hstop & _).
  - apply (bool_decide_unpack _). vm_compute. exact I.
  - apply (bool_decide_unpack _). vm_compute. exact I.
  - apply (bool_decide_unpack _). vm_compute. exact I.
  - discriminate.
  - vm_compute. reflexivity.
  - vm_compute in Hstop. injection Hstop as <-. vm_compute. reflexivity.
Defined.

(** C7. An input in which the same header line occurs twice is refused
    by the parser, whatever the sequence lines are: the validator stops
    with the parse error, and the message shown ends with the request to
    make all headers unique. *)
Theorem duplicate_header_rejected (text header : string) (i j : nat) :
  i ≠ j →
  Taxotagger.header_lines text !! i = Some header →
  Taxotagger.header_lines text !! j = Some header →
  ∃ detail,
    Taxotagger.parse_fasta text = inl detail
    ∧ validate text = Stopped (ParseError detail)
    ∧ st_error_text (ParseError detail)
      = detail +:+ blank_line +:+ "Please ensure all FASTA headers are unique.".
Proof.
  intros Hij Hi Hj.
  destruct (TaxotaggerFacts.parse_fasta_dup text) as (h & _ & Hparse).
  { intros Hnd. apply Hij. by apply (proj1 (NoDup_alt _) Hnd i j header). }
  eexists. split_and!; [done| |done].
  unfold validate, validate_input. rewrite Hparse. done.
Qed.

Lemma duplicate_header_rejected_witness :
  ∃ detail,
    validate (">a" +:+ String newline ("ACGT" +:+ String newline (">a" +:+ String newline "TTTT")))
    = Stopped (ParseError detail).
Proof.
  destruct (duplicate_header_rejected
              (">a" +:+ String newline ("ACGT" +:+ String newline (">a" +:+ String newline "TTTT")))
              ">a" 0 1) as (detail & _ & Hstop & _).
  - discriminate.
  - vm_compute. reflexivity.
  - vm_compute. reflexivity.
  - exists detail. exact Hstop.
Defined.

(** C8. For an input that passed the earlier checks (it parsed, the
    identifiers are pairwise different and every header is valid), the
    validator stops with the too-many-records error exactly when more than
    100 records were parsed: 101 records are refused, and up to 100 records
    are accepted. The notice shown on acceptance is the text
    "You provided <n> valid sequences (max: 100)" in its grey paragraph, [n]
    being the number of records in decimal, and no other number of records
    gives the same text. *)
Theorem too_many_records_check
    (parse_fasta : string → string + list (string * string))
    (parse_unite_fasta_header : string → list string)
    (text : string) (d : list (string * string)) (ids : list string) :
  parse_fasta text = inr d →
  collect_seq_ids parse_unite_fasta_header d.*1 [] = Continue ids →
  Forall (λ header, is_valid_header header) d.*1 →
  (validate_input parse_fasta parse_unite_fasta_header text
   = Stopped TooManyRecordsError ↔ 100 < length d)
  ∧ (length d = 101 →
     validate_input parse_fasta parse_unite_fasta_header text
     = Stopped TooManyRecordsError)
  ∧ (length d ≤ 100 →
     validate_input parse_fasta parse_unite_fasta_header text
     = Continue {| notice :=
                     "<p style='font-size: smaller; color: gray;'>You provided "
                     +:+ pretty (length d)
                     +:+ " valid sequences (max: 100)</p>";
                   seq_ids := ids; fasta_content := text |})
  ∧ (∀ n : nat,
       "<p style='font-size: smaller; color: gray;'>You provided "
       +:+ pretty n +:+ " valid sequences (max: 100)</p>"
       = "<p style='font-size: smaller; color: gray;'>You provided "
         +:+ pretty (length d) +:+ " valid sequences (max: 100)</p>" →
       n = length d).
Proof.
  intros Hparse Hids Hvalid.
  rewrite (validate_input_after_ids _ _ text d ids Hparse Hids).
  rewrite decide_False.
  2:{ intros Hne. apply Hne. rewrite <- (length_fmap fst d).
      by apply all_valid_iff_count. }
  split_and!.
  - case_decide; split; (done || lia).
  - intros Hlen. rewrite decide_True; [done|lia].
  - intros Hlen. rewrite decide_False; [done|lia].
  - intros n Hsame.
    apply (inj (String.app "<p style='font-size: smaller; color: gray;'>You provided "))
      in Hsame.
    apply app_inj_r in Hsame. by apply (inj pretty).
Qed.

Lemma too_many_records_check_witness :
  validate (sample_fasta 101) = Stopped TooManyRecordsError
  ∧ ∃ ids, validate (sample_fasta 100)
           = Continue {| notice := "<p style='font-size: smaller; color: gray;'>You provided 100 valid sequences (max: 100)</p>";
                         seq_ids := ids;
                         fasta_content := sample_fasta 100 |}.
Proof.
  split.
  - destruct (Taxotagger.parse_fasta (sample_fasta 101)) as [e|d] eqn:Hparse;
      [vm_compute in Hparse; discriminate|].
    destruct (collect_seq_ids Taxotagger.parse_unite_fasta_header d.*1 [])
      as [ids|e|x] eqn:Hids.
    + destruct (too_many_records_check _ _ _ d ids Hparse Hids) as (_ & Hstop & _).
      * vm_compute in Hparse. injection Hparse as <-.
        apply (bool_decide_unpack _). vm_compute. exact I.
      * apply Hstop. vm_compute in Hparse. injection Hparse as <-.
        vm_compute. reflexivity.
    + vm_compute in Hparse. injection Hparse as <-. vm_compute in Hids. discriminate.
    + vm_compute in Hparse. injection Hparse as <-. vm_compute in Hids. discriminate.
  - destruct (Taxotagger.parse_fasta (sample_fasta 100)) as [e|d] eqn:Hparse;
      [vm_compute in Hparse; discriminate|].
    destruct (collect_seq_ids Taxotagger.parse_unite_fasta_header d.*1 [])
      as [ids|e|x] eqn:Hids.
    + destruct (too_many_records_check _ _ _ d ids Hparse Hids)
        as (_ & _ & Hok & _).
      * vm_compute in Hparse. injection Hparse as <-.
        apply (bool_decide_unpack _). vm_compute. exact I.
      * exists ids. unfold validate. rewrite Hok.
        -- vm_compute in Hparse. injection Hparse as <-. reflexivity.
        -- vm_compute in Hparse. injection Hparse as <-. vm_compute. lia.
    + vm_compute in Hparse. injection Hparse as <-. vm_compute in Hids. discriminate.
    + vm_compute in Hparse. injection Hparse as <-. vm_compute in Hids. discriminate.
Defined.

(** The first loop stops with the duplicate-identifier error only. *)
Lemma collect_seq_ids_Stopped (parse_unite_fasta_header : string → list string)
    (headers acc : list string) (e : ValidationError) :
  collect_seq_ids parse_unite_fasta_header headers acc = Stopped e →
  ∃ seq_id, e = DuplicateIdentifierError seq_id.
Proof.
  revert acc. induction headers as [|h hs IH]; intros acc; simpl; [done|].
  destruct (parse_unite_fasta_header h !! 0) as [t|]; [|done].
  case_decide; [|apply IH]. intros [= <-]. by exists t.
Qed.

(** The too-many-records error is never shown for 100 records or fewer,
    whatever else the input contains. *)
Lemma too_many_records_only_above_cap
    (parse_fasta : string → string + list (string * string))
    (parse_unite_fasta_header : string → list string) (text : string) :
  validate_input parse_fasta parse_unite_fasta_header text
  = Stopped TooManyRecordsError →
  ∃ d, parse_fasta text = inr d ∧ 100 < length d.
Proof.
  unfold validate_input. destruct (parse_fasta text) as [e|d]; [done|]. simpl.
  destruct (collect_seq_ids _ _ _) as [ids|e|x] eqn:Hids; simpl; [| |done].
  - repeat case_decide; try done. intros _. by exists d.
  - apply collect_seq_ids_Stopped in Hids as [t ->]. done.
Qed.

(** ** Column names *)

Lemma last_char_app (s t : string) : t ≠ "" → last_char (s +:+ t) = last_char t.
Proof.
  intros Ht. induction s as [|c s IH]; [done|]. rewrite app_cons. simpl.
  destruct (s +:+ t) eqn:Heq; [|done].
  apply (f_equal String.length) in Heq. rewrite ?app_length in Heq.
  destruct t; [done|]. simpl in Heq. lia.
Qed.

Lemma to_lower_not_upper (c : ascii) : is_upper (to_lower c) = false.
Proof. destruct c as [[] [] [] [] [] [] [] []]; vm_compute; reflexivity. Qed.

Lemma lower_no_upper (r y z : string) (u : ascii) :
  lower r = y +:+ String u z → is_upper u = false.
Proof.
  revert r. induction y as [|c y IH]; intros [|c' r] Heq; simpl in Heq; try done.
  - injection Heq as <- _. apply to_lower_not_upper.
  - rewrite app_cons in Heq. injection Heq as _ Heq. by apply (IH r).
Qed.

(** A capitalised name has no capital letter after its first character,
    so it is never the name of a hit or similarity column. *)
Lemma capitalize_not_suffixed (level x z : string) (u : ascii) :
  is_upper u = true → capitalize level ≠ x +:+ String "_" (String u z).
Proof.
  intros Hu Heq. destruct level as [|c rest]; simpl in Heq.
  { apply (f_equal String.length) in Heq. rewrite ?app_length in Heq. simpl in Heq. lia. }
  destruct x as [|c' x].
  - injection Heq as _ Heq. destruct rest as [|c2 rest]; [done|].
    simpl in Heq. injection Heq as Heq _.
    pose proof (to_lower_not_upper c2). congruence.
  - rewrite app_cons in Heq. injection Heq as _ Heq.
    assert (x +:+ String "_" (String u z) = (x +:+ "_") +:+ String u z) as Hassoc.
    { clear. induction x as [|c x IH]; [done|]. by rewrite !app_cons, IH. }
    rewrite Hassoc in Heq. apply lower_no_upper in Heq. congruence.
Qed.

Lemma hit_key_not_similarity_key (a b : string) : hit_key a ≠ similarity_key b.
Proof.
  unfold hit_key, similarity_key. intros Heq. apply (f_equal last_char) in Heq.
  rewrite !last_char_app in Heq by done. done.
Qed.

Lemma capitalize_not_hit_key (level x : string) : capitalize level ≠ hit_key x.
Proof. by apply capitalize_not_suffixed. Qed.

Lemma capitalize_not_similarity_key (level x : string) :
  capitalize level ≠ similarity_key x.
Proof. by apply capitalize_not_suffixed. Qed.

(** Levels with different capitalised names write different columns. *)
Lemma level_keys_disjoint (l l' k : string) :
  capitalize l ≠ capitalize l' → k ∈ level_keys l → k ∉ level_keys l'.
Proof.
  intros Hne. unfold level_keys. rewrite !elem_of_cons, !elem_of_nil.
  pose proof (capitalize_not_hit_key l (capitalize l')).
  pose proof (capitalize_not_hit_key l' (capitalize l)).
  pose proof (capitalize_not_similarity_key l (capitalize l')).
  pose proof (capitalize_not_similarity_key l' (capitalize l)).
  pose proof (hit_key_not_similarity_key (capitalize l) (capitalize l')).
  pose proof (hit_key_not_similarity_key (capitalize l') (capitalize l)).
  assert (hit_key (capitalize l) ≠ hit_key (capitalize l')).
  { intros Heq. by apply app_inj_r in Heq. }
  assert (similarity_key (capitalize l) ≠ similarity_key (capitalize l')).
  { intros Heq. by apply app_inj_r in Heq. }
  intros [-> | [-> | [-> | []]]] [Heq | [Heq | [Heq | []]]]; congruence.
Qed.

(** The identifier and rank columns are not hit or similarity columns. *)
Lemma initial_record_keys {Score} (seq_id : string) (j : nat) (x : string) :
  (<["Rank" := Int (j + 1)]> (<["Sequence_ID" := Str seq_id]> ∅)
     : gmap string (cell Score)) !! hit_key x = None
  ∧ (<["Rank" := Int (j + 1)]> (<["Sequence_ID" := Str seq_id]> ∅)
     : gmap string (cell Score)) !! similarity_key x = None.
Proof.
  assert (∀ (suffix : string) (name : string),
            suffix ≠ "" → last_char name ≠ last_char suffix → name ≠ x +:+ suffix)
    as Hdiff.
  { intros suffix name Hs Hlast ->. by rewrite last_char_app in Hlast. }
  split; rewrite !lookup_insert_ne, lookup_empty; try done;
    by apply Hdiff.
Qed.

(** ** Loops that may raise *)

Lemma foldM_app {A B} (f : B → A → script B) (b : B) (l1 l2 : list A) :
  foldM f b (l1 ++ l2) = (b' ← foldM f b l1; foldM f b' l2).
Proof.
  revert b. induction l1 as [|x l1 IH]; intros b; simpl; [done|].
  destruct (f b x); simpl; [apply IH|done..].
Qed.

Lemma mapM_Continue {A B} (f : A → script B) (l : list A) :
  (∀ x, x ∈ l → ∃ y, f x = Continue y) →
  ∃ ys, mapM f l = Continue ys
        ∧ length ys = length l
        ∧ ∀ j x, l !! j = Some x → ∃ y, ys !! j = Some y ∧ f x = Continue y.
Proof.
  induction l as [|x l IH]; intros Hf.
  { exists []. split_and!; [done..|]. intros j x Hx. done. }
  destruct (Hf x) as [y Hy]; [left|].
  destruct IH as (ys & Hys & Hlen & Hnth). { intros x' Hx'. apply Hf. by right. }
  exists (y :: ys). split_and!.
  - simpl. rewrite Hy. simpl. by rewrite Hys.
  - simpl. by rewrite Hlen.
  - intros [|j] x' Hx'; simpl in *; [|by apply Hnth].
    injection Hx' as <-. by exists y.
Qed.

(** ** The assembler *)

Section AssemblerFacts.

Context {Score : Type}.
Variable TAXONOMY_LEVELS : list string.

Implicit Types (results : gmap string (list (list (Match Score)))).
Implicit Types (r before after : gmap string (cell Score)).

(** One level: the record gets the columns of the level, and no other
    column changes. *)
Lemma assemble_level_spec results i j before level per_seq :
  results !! level = Some per_seq →
  Forall (Forall (λ match_, is_Some (m_id match_))) per_seq →
  ∃ after,
    assemble_level results i j before level = Continue after
    ∧ level_recorded (slot results level i j) level before after
    ∧ ∀ k, k ∉ level_keys level → after !! k = before !! k.
Proof.
  intros Hlevel Hids.
  unfold assemble_level, slot, level_recorded, SearchResults, Result.
  rewrite Hlevel.
  pose proof (capitalize_not_hit_key level (capitalize level)) as Hch.
  pose proof (capitalize_not_similarity_key level (capitalize level)) as Hcs.
  pose proof (hit_key_not_similarity_key (capitalize level) (capitalize level)) as Hhs.
  assert (∀ (a b c : cell Score) k, k ∉ level_keys level →
            <[similarity_key (capitalize level) := a]>
              (<[hit_key (capitalize level) := b]>
                 (<[capitalize level := c]> before)) !! k = before !! k)
    as Hframe.
  { intros a b c k Hk. unfold level_keys in Hk.
    rewrite !not_elem_of_cons in Hk. destruct Hk as (? & ? & ? & _).
    by rewrite !lookup_insert_ne. }
  destruct (per_seq !! i ≫= (.!! j)) as [m|] eqn:Hslot.
  - assert (is_Some (m_id m)) as [hit Hhit].
    { destruct (per_seq !! i) as [ranked|] eqn:Hi; [|done]. simpl in Hslot.
      eapply Forall_lookup_1 in Hids; [|done].
      by eapply Forall_lookup_1 in Hids. }
    rewrite Hhit. case_decide.
    + eexists. split_and!; [done| | | |by apply Hframe].
      * by rewrite !lookup_insert_ne, lookup_insert_eq by done.
      * by rewrite lookup_insert_ne, lookup_insert_eq by done.
      * by rewrite lookup_insert_eq.
    + eexists. split_and!; [done| | | |by apply Hframe].
      * by rewrite !lookup_insert_ne, lookup_insert_eq by done.
      * by rewrite lookup_insert_ne, lookup_insert_eq by done.
      * by rewrite lookup_insert_eq.
  - eexists. split_and!; [done| | | |].
    + by rewrite lookup_insert_eq.
    + by rewrite lookup_insert_ne.
    + by rewrite lookup_insert_ne.
    + intros k Hk. unfold level_keys in Hk.
      rewrite !not_elem_of_cons in Hk. destruct Hk as (? & _).
      by rewrite lookup_insert_ne.
Qed.

(** What [level_recorded] says only depends on the columns of the level. *)
Lemma level_recorded_frame found level before before' after after' :
  (∀ k, k ∈ level_keys level → before' !! k = before !! k) →
  (∀ k, k ∈ level_keys level → after' !! k = after !! k) →
  level_recorded found level before after →
  level_recorded found level before' after'.
Proof.
  intros Hb Ha. unfold level_recorded, level_keys, Result in *.
  rewrite (Ha (capitalize level)), (Ha (hit_key (capitalize level))),
    (Ha (similarity_key (capitalize level))) by set_solver.
  destruct found; [done|].
  by rewrite (Hb (hit_key (capitalize level))),
    (Hb (similarity_key (capitalize level))) by set_solver.
Qed.

(** The loop over the levels, from any record. *)
Lemma assemble_levels_spec results i j levels before :
  (∀ level, level ∈ levels →
     ∃ per_seq, results !! level = Some per_seq
                ∧ Forall (Forall (λ match_, is_Some (m_id match_))) per_seq) →
  NoDup (capitalize <$> levels) →
  ∃ after,
    foldM (assemble_level results i j) before levels = Continue after
    ∧ (∀ level, level ∈ levels →
         level_recorded (slot results level i j) level before after)
    ∧ ∀ k, (∀ level, level ∈ levels → k ∉ level_keys level) →
           after !! k = before !! k.
Proof.
  revert before. induction levels as [|l ls IH]; intros before Hok Hnd.
  { exists before. split_and!; [done| |done]. intros level Hin. by apply elem_of_nil in Hin. }
  rewrite fmap_cons in Hnd. apply NoDup_cons in Hnd as [Hfresh Hnd].
  destruct (Hok l) as (per_seq & Hl & Hids); [left|].
  destruct (assemble_level_spec results i j before l per_seq Hl Hids)
    as (mid & Hstep & Hrec & Hframe).
  destruct (IH mid) as (after & Hrest & Hrecs & Hframes); [|done|].
  { intros level Hin. apply Hok. by right. }
  assert (∀ l', l' ∈ ls → capitalize l ≠ capitalize l') as Hother.
  { intros l' Hin Heq. apply Hfresh. rewrite Heq. by apply list_elem_of_fmap_2. }
  exists after. split_and!.
  - simpl. rewrite Hstep. done.
  - intros level [-> | Hin]%elem_of_cons.
    + eapply level_recorded_frame; [done| |exact Hrec].
      intros k Hk. apply Hframes. intros l' Hl'.
      apply (level_keys_disjoint l l'); [by apply Hother|done].
    + destruct (decide (capitalize level = capitalize l)) as [Heq|Hne].
      { exfalso. by apply (Hother level). }
      eapply level_recorded_frame; [| |exact (Hrecs level Hin)]; [|done].
      intros k Hk. symmetry. apply Hframe.
      intros Hkl. by apply (level_keys_disjoint level l k Hne Hk).
  - intros k Hk. rewrite Hframes, Hframe; [done| |].
    + apply Hk. left.
    + intros level Hin. apply Hk. by right.
Qed.

(** The loop over the levels ends without an exception, whatever the
    names of the levels are. *)
Lemma assemble_levels_total results i j levels before :
  (∀ level, level ∈ levels →
     ∃ per_seq, results !! level = Some per_seq
                ∧ Forall (Forall (λ match_, is_Some (m_id match_))) per_seq) →
  ∃ after, foldM (assemble_level results i j) before levels = Continue after.
Proof.
  revert before. induction levels as [|l ls IH]; intros before Hok.
  { by exists before. }
  destruct (Hok l) as (per_seq & Hl & Hids); [left|].
  destruct (assemble_level_spec results i j before l per_seq Hl Hids)
    as (mid & Hstep & _).
  destruct (IH mid) as (after & Hrest).
  { intros level Hin. apply Hok. by right. }
  exists after. simpl. by rewrite Hstep.
Qed.

(** The record of position [i] and rank [j] exists and holds, for every
    level, what that level recorded on a record without hit and
    similarity columns. *)
Lemma assemble_record_spec results seq_id i j :
  engine_contract TAXONOMY_LEVELS results →
  NoDup (capitalize <$> TAXONOMY_LEVELS) →
  ∃ r, assemble_record TAXONOMY_LEVELS results seq_id i j = Continue r
       ∧ ∀ level, level ∈ TAXONOMY_LEVELS →
           level_recorded (slot results level i j) level ∅ r.
Proof.
  intros Hok Hnd.
  destruct (assemble_levels_spec results i j TAXONOMY_LEVELS
              (<["Rank" := Int (j + 1)]> (<["Sequence_ID" := Str seq_id]> ∅))
              Hok Hnd) as (r & Hrun & Hrecs & _).
  exists r. split; [done|]. intros level Hin.
  specialize (Hrecs level Hin). unfold level_recorded, Result in *.
  destruct (slot results level i j); [done|].
  destruct (initial_record_keys (Score:=Score) seq_id j (capitalize level))
    as [Hhit Hsim].
  rewrite Hhit, Hsim in Hrecs. by rewrite !lookup_empty.
Qed.

(** The loop over the identifiers: every identifier gets its [top_n]
    records, the record of rank [j] being the one assembled for its
    position. *)
Lemma assemble_from_spec results top_n seq_ids :
  engine_contract TAXONOMY_LEVELS results →
  NoDup (capitalize <$> TAXONOMY_LEVELS) →
  NoDup seq_ids →
  ∀ i0 (acc : gmap string (list (gmap string (cell Score)))),
  ∃ table,
    assemble_from TAXONOMY_LEVELS results top_n i0 seq_ids acc = Continue table
    ∧ (∀ x, x ∉ seq_ids → table !! x = acc !! x)
    ∧ ∀ k seq_id, seq_ids !! k = Some seq_id →
        ∃ records,
          table !! seq_id = Some records
          ∧ length records = top_n
          ∧ ∀ j, j < top_n →
              ∃ r, records !! j = Some r
                   ∧ assemble_record TAXONOMY_LEVELS results seq_id (i0 + k) j
                     = Continue r.
Proof.
  intros Hok Hcaps Hnd.
  induction Hnd as [|seq_id rest Hfresh Hnd IH]; intros i0 acc.
  { exists acc. split_and!; [done..|]. intros k seq_id Hk. done. }
  destruct (mapM_Continue (assemble_record TAXONOMY_LEVELS results seq_id i0)
              (seq 0 top_n)) as (records & Hrecords & Hlen & Hnth).
  { intros j _. destruct (assemble_record_spec results seq_id i0 j Hok Hcaps)
      as (r & Hr & _). by exists r. }
  destruct (IH (S i0) (<[seq_id := records]> acc)) as (table & Hrun & Hframe & Hrest).
  exists table. split_and!.
  - simpl. rewrite Hrecords. done.
  - intros x Hx. apply not_elem_of_cons in Hx as [Hne Hx].
    by rewrite Hframe, lookup_insert_ne.
  - intros [|k] x Hk; simpl in Hk.
    + injection Hk as <-. exists records.
      rewrite Hframe, lookup_insert_eq by done.
      rewrite length_seq in Hlen. split_and!; [done..|].
      intros j Hj. destruct (Hnth j j) as (r & Hr & Hrec).
      { by apply lookup_seq. }
      exists r. by rewrite Nat.add_0_r.
    + destruct (Hrest k x Hk) as (recs & Htable & Hl & Hj).
      exists recs. split_and!; [done..|].
      intros j Hjlt. destruct (Hj j Hjlt) as (r & Hr & Hrec).
      exists r. split; [done|]. by rewrite <- Nat.add_succ_comm.
Qed.

End AssemblerFacts.

Section AssemblerClaims.

Context {Score : Type}.
Variable TAXONOMY_LEVELS : list string.

Implicit Types (results : gmap string (list (list (Match Score)))).

(** The table of a run: the identifier at position [i] has [top_n]
    records, and the record of rank [j] holds what every level recorded
    for the slot [(i, j)]. *)
Lemma assemble_spec results seq_ids top_n i seq_id :
  engine_contract TAXONOMY_LEVELS results →
  NoDup (capitalize <$> TAXONOMY_LEVELS) →
  NoDup seq_ids →
  seq_ids !! i = Some seq_id →
  ∃ table records,
    assemble TAXONOMY_LEVELS results seq_ids top_n = Continue table
    ∧ table !! seq_id = Some records
    ∧ length records = top_n
    ∧ ∀ j, j < top_n →
        ∃ r, records !! j = Some r
             ∧ ∀ level, level ∈ TAXONOMY_LEVELS →
                 level_recorded (slot results level i j) level ∅ r.
Proof.
  intros Hok Hcaps Hnd Hi.
  destruct (assemble_from_spec TAXONOMY_LEVELS results top_n seq_ids
              Hok Hcaps Hnd 0 ∅) as (table & Hrun & _ & Hrows).
  destruct (Hrows i seq_id Hi) as (records & Htable & Hlen & Hrecs).
  exists table, records. split_and!; [done..|].
  intros j Hj. destruct (Hrecs j Hj) as (r & Hr & Hrec).
  exists r. split; [done|].
  destruct (assemble_record_spec TAXONOMY_LEVELS results seq_id i j Hok Hcaps)
    as (r' & Hr' & Hlevels).
  simpl in Hrec. rewrite Hrec in Hr'. by injection Hr' as <-.
Qed.


(** The identifiers the count check calls processed: those carried by
    some match of some level. *)
Lemma collect_processed_ids_spec results :
  engine_contract TAXONOMY_LEVELS results →
  ∃ processed_ids : gset string,
    collect_processed_ids TAXONOMY_LEVELS results = Continue processed_ids
    ∧ ∀ x, x ∈ processed_ids ↔
           ∃ level per_seq match_,
             level ∈ TAXONOMY_LEVELS ∧ results !! level = Some per_seq
             ∧ match_ ∈ concat per_seq ∧ m_id match_ = Some x.
Proof.
  intros Hok. unfold collect_processed_ids.
  assert (∀ levels (acc : gset string),
            (∀ level, level ∈ levels → is_Some (results !! level)) →
            ∃ S : gset string,
              foldM (λ processed_ids level,
                       match results !! level with
                       | None => Raised (KeyError level)
                       | Some per_seq =>
                           Continue (processed_ids ∪ ids_of_level per_seq)
                       end) acc levels = Continue S
              ∧ ∀ x, x ∈ S ↔
                     x ∈ acc ∨ ∃ level per_seq match_,
                       level ∈ levels ∧ results !! level = Some per_seq
                       ∧ match_ ∈ concat per_seq ∧ m_id match_ = Some x)
    as Hloop.
  { induction levels as [|l ls IH]; intros acc Hpresent.
    { exists acc. split; [done|]. intros x. split; [by left|].
      intros [?|(level & ? & ? & Hin & _)]; [done|]. by apply elem_of_nil in Hin. }
    destruct (Hpresent l) as [per_seq Hl]; [left|].
    destruct (IH (acc ∪ ids_of_level per_seq)) as (S & Hrun & HS).
    { intros level Hin. apply Hpresent. by right. }
    exists S. split; [simpl; unfold SearchResults; by rewrite Hl|].
    intros x. rewrite HS, elem_of_union. unfold ids_of_level.
    rewrite elem_of_list_to_set, list_elem_of_omap. split.
    - intros [[?|(m & Hm & Hx)]|(level & ps & m & Hin & ?)].
      + by left.
      + right. exists l, per_seq, m. split_and!; [left|done..].
      + right. exists level, ps, m. split; [by right|done].
    - intros [?|(level & ps & m & [-> | Hin]%elem_of_cons & Hps & Hm & Hx)].
      + by left; left.
      + left; right. exists m. split; [|done]. congruence.
      + right. by exists level, ps, m. }
  destruct (Hloop TAXONOMY_LEVELS ∅) as (S & Hrun & HS).
  { intros level Hin. destruct (Hok level Hin) as (per_seq & Hl & _). by exists per_seq. }
  exists S. split; [done|]. intros x. rewrite HS. split; [|by right].
  intros [Hx|?]; [|done]. by apply not_elem_of_empty in Hx.
Qed.

End AssemblerClaims.

Lemma sample_results_contract : engine_contract sample_levels sample_results.
Proof.
  intros level Hin. unfold sample_levels in Hin.
  repeat (apply elem_of_cons in Hin as [-> | Hin]);
    try (by apply elem_of_nil in Hin);
    (eexists; split; [vm_compute; reflexivity|repeat constructor; by eexists]).
Qed.

Lemma sample_levels_columns : NoDup (capitalize <$> sample_levels).
Proof. apply (bool_decide_unpack _). vm_compute. exact I. Qed.

Section AssemblerTheorems.

Context {Score : Type}.
Variable TAXONOMY_LEVELS : list string.

Implicit Types (results : gmap string (list (list (Match Score)))).

(** C2. For the identifier at position [i], the assembler emits [top_n]
    records; whenever [results[level][i][j]] is out of range for a rank
    [j] below [top_n], the record of rank [j] holds the label
    "No match found" for that level and has no hit and no similarity
    column for it. With one match and [top_n = 3] these are the ranks 1
    and 2 of the three records, on every level. *)
Theorem missing_slot_gets_sentinel results seq_ids top_n i seq_id :
  engine_contract TAXONOMY_LEVELS results →
  NoDup (capitalize <$> TAXONOMY_LEVELS) →
  NoDup seq_ids →
  seq_ids !! i = Some seq_id →
  ∃ table records,
    assemble TAXONOMY_LEVELS results seq_ids top_n = Continue table
    ∧ table !! seq_id = Some records
    ∧ length records = top_n
    ∧ ∀ j level,
        j < top_n → level ∈ TAXONOMY_LEVELS →
        slot results level i j = None →
        ∃ r : gmap string (cell Score),
          records !! j = Some r
          ∧ r !! capitalize level = Some (Str "No match found")
          ∧ r !! hit_key (capitalize level) = None
          ∧ r !! similarity_key (capitalize level) = None.
Proof.
  intros Hok Hcaps Hnd Hi.
  destruct (assemble_spec TAXONOMY_LEVELS results seq_ids top_n i seq_id
              Hok Hcaps Hnd Hi) as (table & records & Hrun & Htable & Hlen & Hrecs).
  exists table, records. split_and!; [done..|].
  intros j level Hj Hlevel Hslot.
  destruct (Hrecs j Hj) as (r & Hr & Hlevels).
  exists r. split; [done|].
  specialize (Hlevels level Hlevel). unfold level_recorded, Result in Hlevels.
  rewrite Hslot in Hlevels. by rewrite !lookup_empty in Hlevels.
Qed.

(** C5. When [results[level][i][j]] is present and the entity of the
    match has no value, or the empty value, for the level, the record of
    rank [j] holds the empty string as label, hit and similarity of that
    level: the label is not the sentinel and the hit column is set,
    unlike for a missing slot. *)
Theorem empty_value_gets_placeholders results seq_ids top_n i seq_id :
  engine_contract TAXONOMY_LEVELS results →
  NoDup (capitalize <$> TAXONOMY_LEVELS) →
  NoDup seq_ids →
  seq_ids !! i = Some seq_id →
  ∃ table records,
    assemble TAXONOMY_LEVELS results seq_ids top_n = Continue table
    ∧ table !! seq_id = Some records
    ∧ ∀ j level match_,
        j < top_n → level ∈ TAXONOMY_LEVELS →
        slot results level i j = Some match_ →
        default "" (m_entity match_ !! level) = "" →
        ∃ r : gmap string (cell Score),
          records !! j = Some r
          ∧ r !! capitalize level = Some (Str "")
          ∧ r !! hit_key (capitalize level) = Some (Str "")
          ∧ r !! similarity_key (capitalize level) = Some (Str "")
          ∧ r !! capitalize level ≠ Some (Str "No match found")
          ∧ r !! hit_key (capitalize level) ≠ None
          ∧ r !! similarity_key (capitalize level) ≠ None.
Proof.
  intros Hok Hcaps Hnd Hi.
  destruct (assemble_spec TAXONOMY_LEVELS results seq_ids top_n i seq_id
              Hok Hcaps Hnd Hi) as (table & records & Hrun & Htable & Hlen & Hrecs).
  exists table, records. split_and!; [done..|].
  intros j level m Hj Hlevel Hslot Hempty.
  destruct (Hrecs j Hj) as (r & Hr & Hlevels).
  exists r. split; [done|].
  specialize (Hlevels level Hlevel). unfold level_recorded, Result in Hlevels.
  rewrite Hslot, Hempty in Hlevels. rewrite decide_False in Hlevels by auto.
  destruct Hlevels as (-> & -> & ->). done.
Qed.


End AssemblerTheorems.

Lemma missing_slot_gets_sentinel_witness :
  ∃ table records,
    assemble sample_levels sample_results ["s0"] 3 = Continue table
    ∧ table !! "s0" = Some records
    ∧ length records = 3
    ∧ ∀ level j, level ∈ sample_levels → j = 1 ∨ j = 2 →
        ∃ r : gmap string (cell nat),
          records !! j = Some r
          ∧ r !! capitalize level = Some (Str "No match found")
          ∧ r !! hit_key (capitalize level) = None
          ∧ r !! similarity_key (capitalize level) = None.
Proof.
  destruct (missing_slot_gets_sentinel sample_levels sample_results ["s0"] 3 0 "s0"
              sample_results_contract sample_levels_columns)
    as (table & records & Hrun & Htable & Hlen & Hsentinel).
  - apply (bool_decide_unpack _). vm_compute. exact I.
  - reflexivity.
  - exists table, records. split_and!; [exact Hrun|exact Htable|exact Hlen|].
    intros level j Hlevel Hj. apply Hsentinel.
    + destruct Hj as [-> | ->]; lia.
    + exact Hlevel.
    + unfold sample_levels in Hlevel.
      repeat (apply elem_of_cons in Hlevel as [-> | Hlevel]);
        try (by apply elem_of_nil in Hlevel);
        destruct Hj as [-> | ->]; vm_compute; reflexivity.
Defined.

Lemma empty_value_gets_placeholders_witness :
  ∃ table records (r : gmap string (cell nat)),
    assemble sample_levels sample_results ["s0"] 1 = Continue table
    ∧ table !! "s0" = Some records
    ∧ records !! 0 = Some r
    ∧ r !! "Genus" = Some (Str "")
    ∧ r !! "Genus_Hit" = Some (Str "")
    ∧ r !! "Genus_Similarity" = Some (Str "")
    ∧ r !! "Class" = Some (Str "")
    ∧ r !! "Class_Hit" = Some (Str "").
Proof.
  destruct (empty_value_gets_placeholders sample_levels sample_results ["s0"] 1 0 "s0"
              sample_results_contract sample_levels_columns)
    as (table & records & Hrun & Htable & Hempty).
  - apply (bool_decide_unpack _). vm_compute. exact I.
  - reflexivity.
  - destruct (Hempty 0 "genus" sample_match) as (r & Hr & Hlabel & Hhit & Hsim & _).
    + lia.
    + apply (bool_decide_unpack _). vm_compute. exact I.
    + vm_compute. reflexivity.
    + vm_compute. reflexivity.
    + destruct (Hempty 0 "class" sample_match) as (r' & Hr' & Hlabel' & Hhit' & _).
      * lia.
      * apply (bool_decide_unpack _). vm_compute. exact I.
      * vm_compute. reflexivity.
      * vm_compute. reflexivity.
      * rewrite Hr in Hr'. injection Hr' as <-.
        exists table, records, r.
        split_and!; [exact Hrun|exact Htable|exact Hr|exact Hlabel|exact Hhit
                    |exact Hsim|exact Hlabel'|exact Hhit'].
Defined.


(** ** The temporary file *)

Section TempFileTheorems.

Context {Results EngineFailure : Type}.
Variable search : gmap string string → string → string * nat →
                  gmap string string * (EngineFailure + Results).
Variable temp_name : gmap string string → string.

(** The run up to the return of the engine: the file is created, the
    content is written and flushed, and the engine is called on a file
    system in which the file holds the content. *)
Lemma process_fasta_and_run_unfold fasta_content settings w :
  let name := temp_name (files w) in
  let engine := search (<[name := fasta_content]> (files w)) name settings in
  let called :=
    {| files := engine.1; buffer := "";
       trace := trace w ++ [Created name; Written name fasta_content;
                            Flushed name; Searched name (Some fasta_content)] |} in
  process_fasta_and_run Results EngineFailure search temp_name
    fasta_content settings w
  = match engine.1 !! name with
    | Some _ =>
        ({| files := delete name engine.1; buffer := "";
            trace := trace called ++ [Unlinked name; Closed name] |},
         match engine.2 with
         | inl e => inl (EngineRaised e)
         | inr results => inr results
         end)
    | None =>
        ({| files := engine.1; buffer := "";
            trace := trace called ++ [Closed name] |},
         inl (FileNotFoundError name))
    end.
Proof.
  intros name engine called.
  unfold process_fasta_and_run, io_bind, try_finally, named_temporary_file,
    write, flush, tt_search, unlink, close, log. simpl.
  fold name. rewrite alter_insert_eq, lookup_insert_eq.
  change ("" +:+ "" +:+ fasta_content) with fasta_content.
  fold engine. destruct engine as [files' outcome]. simpl.
  destruct (files' !! name) eqn:Hname; simpl; rewrite <- ?app_assoc; done.
Qed.

(** C10. In every run the temporary file is created, written and
    flushed before the engine is called, the engine finds the content in
    it, the file is unlinked right after the engine returns, whether it
    returned matches or raised, and it does not exist afterwards; the
    outcome of the run is the outcome of the engine, its failure
    included. The engine is taken not to remove the file it is given. *)
Theorem temp_file_is_scoped fasta_content settings w :
  let name := temp_name (files w) in
  let engine := search (<[name := fasta_content]> (files w)) name settings in
  let run := process_fasta_and_run Results EngineFailure search temp_name
               fasta_content settings w in
  is_Some (engine.1 !! name) →
  trace run.1
  = trace w ++ [Created name; Written name fasta_content; Flushed name;
                Searched name (Some fasta_content);
                Unlinked name; Closed name]
  ∧ files run.1 = delete name engine.1
  ∧ files run.1 !! name = None
  ∧ run.2 = match engine.2 with
            | inl e => inl (EngineRaised e)
            | inr results => inr results
            end.
Proof.
  intros name engine run [on_disk Hleft]. subst run.
  rewrite process_fasta_and_run_unfold. fold name. fold engine.
  rewrite Hleft. simpl. rewrite <- app_assoc. split_and!; [done..| |done].
  apply lookup_delete_eq.
Qed.

(** Whatever the engine does to the file system, the file is gone after
    the run. *)
Lemma temp_file_never_left_behind fasta_content settings w :
  let name := temp_name (files w) in
  files (process_fasta_and_run Results EngineFailure search temp_name
           fasta_content settings w).1 !! name = None.
Proof.
  intros name. rewrite process_fasta_and_run_unfold. fold name.
  set (engine := search (<[name := fasta_content]> (files w)) name settings).
  destruct (engine.1 !! name) eqn:Hname; simpl; [apply lookup_delete_eq|done].
Qed.

End TempFileTheorems.

Lemma temp_file_is_scoped_witness :
  let run := process_fasta_and_run unit string failing_search sample_temp_name
               (sample_fasta 1) ("model", 2) empty_world in
  trace run.1
  = [Created "/tmp/tmp0.fasta";
     Written "/tmp/tmp0.fasta" (sample_fasta 1);
     Flushed "/tmp/tmp0.fasta";
     Searched "/tmp/tmp0.fasta" (Some (sample_fasta 1));
     Unlinked "/tmp/tmp0.fasta"; Closed "/tmp/tmp0.fasta"]
  ∧ files run.1 = ∅
  ∧ run.2 = inl (EngineRaised "engine unavailable").
Proof.
  destruct (temp_file_is_scoped failing_search sample_temp_name
              (sample_fasta 1) ("model", 2) empty_world)
    as (Htrace & Hfiles & _ & Houtcome).
  - vm_compute. eexists. reflexivity.
  - split_and!; [exact Htrace| |exact Houtcome].
    rewrite Hfiles. vm_compute. reflexivity.
Defined.

(** An engine that removes the file makes [os.unlink] raise: the failure of
    the engine is then replaced by [FileNotFoundError]. *)
Example greedy_engine_masks_failure :
  (process_fasta_and_run unit string greedy_search sample_temp_name
     (sample_fasta 1) ("model", 2) empty_world).2
  = inl (FileNotFoundError "/tmp/tmp0.fasta").
Proof. vm_compute. reflexivity. Qed.

(** * Further properties of the application *)

(** ** The first loop of the validator *)

Section FirstLoop.

Variable parse_unite_fasta_header : string → list string.

Lemma collect_seq_ids_NoDup headers acc out :
  collect_seq_ids parse_unite_fasta_header headers acc = Continue out →
  NoDup acc → NoDup out.
Proof.
  revert acc. induction headers as [|h hs IH]; intros acc Hrun Hacc; simpl in *.
  { by injection Hrun as <-. }
  destruct (parse_unite_fasta_header h !! 0) as [t|]; [|done].
  destruct (decide (t ∈ acc)) as [|Hfresh]; [done|].
  apply (IH _ Hrun). apply NoDup_app. split_and!; [done| |apply NoDup_singleton].
  intros x Hx ->%list_elem_of_singleton. done.
Qed.

Lemma collect_seq_ids_app pre rest acc :
  collect_seq_ids parse_unite_fasta_header (pre ++ rest) acc
  = (out ← collect_seq_ids parse_unite_fasta_header pre acc;
     collect_seq_ids parse_unite_fasta_header rest out).
Proof.
  revert acc. induction pre as [|h hs IH]; intros acc; simpl; [done|].
  destruct (parse_unite_fasta_header h !! 0) as [t|]; [|done].
  destruct (decide (t ∈ acc)); [done|]. apply IH.
Qed.

(** Where the loop ends when it does not reach the last header: the
    headers before that place reduced to identifiers all new. *)
Lemma collect_seq_ids_ends_early headers acc :
  (∀ out, collect_seq_ids parse_unite_fasta_header headers acc ≠ Continue out) →
  ∃ pre h post seen,
    headers = pre ++ h :: post
    ∧ reduce_to parse_unite_fasta_header pre seen
    ∧ collect_seq_ids parse_unite_fasta_header pre acc = Continue (acc ++ seen)
    ∧ collect_seq_ids parse_unite_fasta_header headers acc
      = match parse_unite_fasta_header h !! 0 with
        | None => Raised IndexError
        | Some seq_id => Stopped (DuplicateIdentifierError seq_id)
        end
    ∧ ∀ seq_id, parse_unite_fasta_header h !! 0 = Some seq_id →
                seq_id ∈ acc ++ seen.
Proof.
  revert acc. induction headers as [|h hs IH]; intros acc Hend.
  { by destruct (Hend acc). }
  destruct (parse_unite_fasta_header h !! 0) as [t|] eqn:Ht.
  - destruct (decide (t ∈ acc)) as [Hin|Hfresh].
    + exists [], h, hs, []. rewrite app_nil_r. simpl. rewrite Ht.
      rewrite decide_True by done. split_and!; [done|by apply Forall2_nil_2|done..|].
      by intros ? [= <-].
    + destruct (IH (acc ++ [t])) as (pre & h' & post & seen & -> & Hred & Hpre & Hrun & Hin).
      { intros out Hout. apply (Hend out). simpl. rewrite Ht.
        by rewrite decide_False. }
      exists (h :: pre), h', post, (t :: seen).
      rewrite <- app_assoc in Hpre, Hin. simpl in *.
      rewrite Ht. rewrite !decide_False by done.
      split_and!; [done|by apply Forall2_cons_2|done..].
  - exists [], h, hs, []. rewrite app_nil_r. simpl. rewrite Ht.
    split_and!; [done|by apply Forall2_nil_2|done..].
Qed.

End FirstLoop.

(** ** The validator: what acceptance and each refusal mean *)

Section ValidatorExtras.

Variable parse_fasta : string → string + list (string * string).
Variable parse_unite_fasta_header : string → list string.

(** X1. Whatever the library functions are, an accepted input parsed into
    at most 100 records whose headers are all longer than one character;
    the stored identifiers are the first elements of the parsed headers,
    in order, one per record, and pairwise different; the stored text is
    the input and the notice gives the number of records. *)
Theorem validate_input_accepted_inv (text : string) (accepted : Accepted) :
  validate_input parse_fasta parse_unite_fasta_header text = Continue accepted →
  ∃ d,
    parse_fasta text = inr d
    ∧ reduce_to parse_unite_fasta_header d.*1 (seq_ids accepted)
    ∧ NoDup (seq_ids accepted)
    ∧ length (seq_ids accepted) = length d
    ∧ length d ≤ 100
    ∧ Forall (λ header, 1 < String.length header) d.*1
    ∧ fasta_content accepted = text
    ∧ notice accepted = accepted_notice (length d).
Proof.
  unfold validate_input. destruct (parse_fasta text) as [e|d]; [done|]. simpl.
  destruct (collect_seq_ids _ _ _) as [ids|e|x] eqn:Hids; simpl; [|done..].
  rewrite count_valid_headers_filter. simpl.
  destruct (decide (_ ≠ _)) as [|Hcount]; [done|].
  destruct (decide (100 < length d)) as [|Hcap]; [done|].
  intros [= <-]. simpl. exists d.
  pose proof (collect_seq_ids_NoDup _ _ _ _ Hids (NoDup_nil_2)) as Hnd.
  apply collect_seq_ids_Continue in Hids as (ids' & -> & Hred). simpl in *.
  split_and!; [done..| | | |done|done].
  - apply Forall2_length in Hred. by rewrite <- Hred, length_fmap.
  - lia.
  - apply dec_stable in Hcount. rewrite <- (length_fmap fst d) in Hcount.
    apply all_valid_iff_count in Hcount.
    eapply Forall_impl; [exact Hcount|]. intros h Hh.
    unfold is_valid_header in Hh. by apply bool_decide_unpack in Hh.
Qed.

(** X2. The validator stops with the duplicate-identifier error for
    [seq_id] exactly when the text parsed and some header reduces to
    [seq_id] while an earlier header did so too, all headers before it
    having reduced to pairwise different identifiers: the identifier named
    is the first one met twice, and neither a malformed header nor the cap
    is looked at before. *)
Theorem duplicate_identifier_is_first_repeat (text seq_id : string) :
  validate_input parse_fasta parse_unite_fasta_header text
  = Stopped (DuplicateIdentifierError seq_id)
  ↔ ∃ d before header after seen,
      parse_fasta text = inr d
      ∧ d.*1 = before ++ header :: after
      ∧ reduce_to parse_unite_fasta_header before seen
      ∧ NoDup seen
      ∧ parse_unite_fasta_header header !! 0 = Some seq_id
      ∧ seq_id ∈ seen.
Proof.
  unfold validate_input. split.
  - destruct (parse_fasta text) as [e|d]; [done|]. simpl.
    destruct (collect_seq_ids _ _ _) as [ids|e|x] eqn:Hids; simpl.
    + repeat case_decide; done.
    + intros [= ->].
      destruct (collect_seq_ids_ends_early parse_unite_fasta_header d.*1 [])
        as (pre & h & post & seen & Hsplit & Hred & Hpre & Hrun & Hin).
      { intros out Hout. congruence. }
      rewrite Hids in Hrun.
      destruct (parse_unite_fasta_header h !! 0) as [t|] eqn:Ht; [|done].
      injection Hrun as ->.
      exists d, pre, h, post, seen. split_and!; [done..| |done|by apply Hin].
      by apply (collect_seq_ids_NoDup _ _ _ _ Hpre), NoDup_nil_2.
    + done.
  - intros (d & pre & h & post & seen & -> & Hsplit & Hred & Hnd & Ht & Hin).
    simpl. rewrite Hsplit, collect_seq_ids_app.
    rewrite (collect_seq_ids_unique _ pre [] seen Hred Hnd). simpl.
    rewrite Ht. by rewrite decide_True.
Qed.

(** X3. The validator ends with an uncaught [IndexError] exactly when the
    text parsed and the header parser returned an empty list for a header,
    the headers before it having reduced to pairwise different
    identifiers; it never ends with a [KeyError]. *)
Theorem validate_input_index_error (text : string) :
  (validate_input parse_fasta parse_unite_fasta_header text = Raised IndexError
   ↔ ∃ d before header after seen,
       parse_fasta text = inr d
       ∧ d.*1 = before ++ header :: after
       ∧ reduce_to parse_unite_fasta_header before seen
       ∧ NoDup seen
       ∧ parse_unite_fasta_header header = [])
  ∧ ∀ key, validate_input parse_fasta parse_unite_fasta_header text
           ≠ Raised (KeyError key).
Proof.
  unfold validate_input. split; [split|].
  - destruct (parse_fasta text) as [e|d]; [done|]. simpl.
    destruct (collect_seq_ids _ _ _) as [ids|e|x] eqn:Hids; simpl.
    + repeat case_decide; done.
    + done.
    + intros [= ->].
      destruct (collect_seq_ids_ends_early parse_unite_fasta_header d.*1 [])
        as (pre & h & post & seen & Hsplit & Hred & Hpre & Hrun & Hin).
      { intros out Hout. congruence. }
      rewrite Hids in Hrun.
      destruct (parse_unite_fasta_header h) as [|t ts] eqn:Ht; [|done].
      exists d, pre, h, post, seen. split_and!; [done..| |done].
      by apply (collect_seq_ids_NoDup _ _ _ _ Hpre), NoDup_nil_2.
  - intros (d & pre & h & post & seen & -> & Hsplit & Hred & Hnd & Ht).
    simpl. rewrite Hsplit, collect_seq_ids_app.
    rewrite (collect_seq_ids_unique _ pre [] seen Hred Hnd). simpl.
    by rewrite Ht.
  - intros key. destruct (parse_fasta text) as [e|d]; [done|]. simpl.
    destruct (collect_seq_ids _ _ _) as [ids|e|x] eqn:Hids; simpl.
    + repeat case_decide; done.
    + done.
    + destruct (collect_seq_ids_ends_early parse_unite_fasta_header d.*1 [])
        as (pre & h & post & seen & _ & _ & _ & Hrun & _).
      { intros out Hout. congruence. }
      rewrite Hids in Hrun.
      destruct (parse_unite_fasta_header h !! 0); [done|].
      injection Hrun as ->. done.
Qed.

End ValidatorExtras.

Lemma validate_input_accepted_inv_witness :
  ∃ accepted d,
    validate (sample_fasta 3) = Continue accepted
    ∧ Taxotagger.parse_fasta (sample_fasta 3) = inr d
    ∧ NoDup (seq_ids accepted)
    ∧ length (seq_ids accepted) = length d.
Proof.
  destruct (validate (sample_fasta 3)) as [accepted|e|x] eqn:Hrun;
    [|vm_compute in Hrun; discriminate..].
  destruct (validate_input_accepted_inv Taxotagger.parse_fasta
              Taxotagger.parse_unite_fasta_header (sample_fasta 3) accepted Hrun)
    as (d & Hparse & _ & Hnd & Hlen & _).
  exists accepted, d. split_and!; [reflexivity|exact Hparse|exact Hnd|exact Hlen].
Defined.

Lemma duplicate_identifier_is_first_repeat_witness :
  validate (">KY1 Fungi" +:+ String newline (">KY2" +:+ String newline ">KY1 Metazoa"))
  = Stopped (DuplicateIdentifierError "KY1").
Proof.
  apply (proj2 (duplicate_identifier_is_first_repeat
                  Taxotagger.parse_fasta Taxotagger.parse_unite_fasta_header _ _)).
  exists [(">KY1 Fungi", ""); (">KY2", ""); (">KY1 Metazoa", "")],
    [">KY1 Fungi"; ">KY2"], ">KY1 Metazoa", [], ["KY1"; "KY2"].
  split_and!.
  - vm_compute. reflexivity.
  - reflexivity.
  - repeat apply Forall2_cons_2; [reflexivity..|apply Forall2_nil_2].
  - apply (bool_decide_unpack _). vm_compute. exact I.
  - vm_compute. reflexivity.
  - apply (bool_decide_unpack _). vm_compute. exact I.
Defined.

Lemma validate_input_index_error_witness :
  validate_input Taxotagger.parse_fasta split_header
    (">s0" +:+ String newline (">" +:+ String newline "ACGT"))
  = Raised IndexError.
Proof.
  apply (proj1 (validate_input_index_error Taxotagger.parse_fasta split_header _)).
  exists [(">s0", ""); (">", "ACGT")], [">s0"], ">", [], ["s0"].
  split_and!.
  - vm_compute. reflexivity.
  - reflexivity.
  - apply Forall2_cons_2; [reflexivity|apply Forall2_nil_2].
  - apply (bool_decide_unpack _). vm_compute. exact I.
  - vm_compute. reflexivity.
Defined.

(** ** Uploaded files *)

Lemma split_on_nonempty (sep : ascii) (s : string) : split_on sep s ≠ [].
Proof.
  destruct s as [|c s]; [done|]. simpl. case_decide; [done|].
  by destruct (split_on sep s).
Qed.

Lemma split_on_app (sep : ascii) (a b : string) :
  split_on sep (a +:+ String sep b) = split_on sep a ++ split_on sep b.
Proof.
  induction a as [|c a IH].
  { change ("" +:+ String sep b) with (String sep b). simpl.
    by rewrite decide_True. }
  rewrite app_cons. simpl. case_decide; [by rewrite IH|].
  rewrite IH. pose proof (split_on_nonempty sep a).
  by destruct (split_on sep a).
Qed.

Lemma string_app_assoc (a b c : string) : (a +:+ b) +:+ c = a +:+ (b +:+ c).
Proof. induction a as [|x a IH]; [done|]. by rewrite !app_cons, IH. Qed.

Lemma join_uploads_from (text : string) (files : list string) :
  foldl (λ fasta_content file, fasta_content +:+ (file +:+ String newline ""))
        text files
  = text +:+ join_uploads files.
Proof.
  unfold join_uploads. revert text.
  induction files as [|f fs IH]; intros text; simpl.
  { by rewrite TaxotaggerFacts.app_empty_r. }
  rewrite (IH (text +:+ _)), (IH ("" +:+ _)). by rewrite string_app_assoc.
Qed.

Lemma join_uploads_cons (file : string) (files : list string) :
  join_uploads (file :: files) = file +:+ String newline (join_uploads files).
Proof.
  unfold join_uploads at 1. simpl. rewrite join_uploads_from.
  change ("" +:+ (file +:+ String newline "")) with (file +:+ String newline "").
  by rewrite string_app_assoc.
Qed.

(** X5. The lines of the text built from the uploaded files are the lines
    of the first file, then those of the second, and so on, then one empty
    line: no line of a file is glued to a line of the next. The header
    lines of the text are therefore the header lines of the files, in
    order. *)
Theorem join_uploads_keeps_lines (uploaded_files : list string) :
  split_on newline (join_uploads uploaded_files)
  = concat (split_on newline <$> uploaded_files) ++ [""]
  ∧ List.filter is_header_line (split_on newline (join_uploads uploaded_files))
    = concat ((λ file, List.filter is_header_line (split_on newline file))
                <$> uploaded_files).
Proof.
  induction uploaded_files as [|file files [IHlines IHheaders]]; [done|].
  rewrite join_uploads_cons, split_on_app. split.
  - rewrite IHlines. simpl. by rewrite app_assoc.
  - rewrite List.filter_app, IHheaders. done.
Qed.

(** ** More on the assembler *)

Lemma sequence_id_not_capitalized (level : string) :
  capitalize level ≠ "Sequence_ID".
Proof. by apply (capitalize_not_suffixed level "Sequence" "D" "I"). Qed.

Lemma fixed_columns_not_level_keys (level : string) :
  capitalize level ≠ "Rank" →
  ("Rank" ∉ level_keys level) ∧ ("Sequence_ID" ∉ level_keys level).
Proof.
  intros Hrank.
  assert (∀ (suffix name x : string),
            suffix ≠ "" → last_char name ≠ last_char suffix → name ≠ x +:+ suffix)
    as Hdiff.
  { intros suffix name x Hs Hlast ->. by rewrite last_char_app in Hlast. }
  pose proof (sequence_id_not_capitalized level).
  unfold level_keys, hit_key, similarity_key. rewrite !not_elem_of_cons.
  split_and!; try done; try (by apply Hdiff); apply not_elem_of_nil.
Qed.

Section AssemblerExtras.

Context {Score : Type}.
Variable TAXONOMY_LEVELS : list string.

Implicit Types (results : gmap string (list (list (Match Score)))).

(** The columns that belong to no level keep the value the record started
    with. *)
Lemma assemble_record_frame results seq_id i j :
  engine_contract TAXONOMY_LEVELS results →
  NoDup (capitalize <$> TAXONOMY_LEVELS) →
  ∃ r : gmap string (cell Score),
    assemble_record TAXONOMY_LEVELS results seq_id i j = Continue r
    ∧ ∀ k, (∀ level, level ∈ TAXONOMY_LEVELS → k ∉ level_keys level) →
        r !! k
        = (<["Rank" := Int (j + 1)]> (<["Sequence_ID" := Str seq_id]> ∅)
           : gmap string (cell Score)) !! k.
Proof.
  intros Hok Hcaps.
  destruct (assemble_levels_spec results i j TAXONOMY_LEVELS
              (<["Rank" := Int (j + 1)]> (<["Sequence_ID" := Str seq_id]> ∅))
              Hok Hcaps) as (r & Hrun & _ & Hframe).
  by exists r.
Qed.

(** X6. When [results[level][i][j]] is present and its entity has a
    non-empty value for the level, the record of rank [j] of the
    identifier at position [i] holds that value as label, the identifier
    of the match as hit and its distance as similarity. *)
Theorem populated_slot_is_recorded results seq_ids top_n i seq_id :
  engine_contract TAXONOMY_LEVELS results →
  NoDup (capitalize <$> TAXONOMY_LEVELS) →
  NoDup seq_ids →
  seq_ids !! i = Some seq_id →
  ∃ table records,
    assemble TAXONOMY_LEVELS results seq_ids top_n = Continue table
    ∧ table !! seq_id = Some records
    ∧ ∀ j level match_ value hit,
        j < top_n → level ∈ TAXONOMY_LEVELS →
        slot results level i j = Some match_ →
        m_entity match_ !! level = Some value → value ≠ "" →
        m_id match_ = Some hit →
        ∃ r : gmap string (cell Score),
          records !! j = Some r
          ∧ r !! capitalize level = Some (Str value)
          ∧ r !! hit_key (capitalize level) = Some (Str hit)
          ∧ r !! similarity_key (capitalize level)
            = Some (Float (m_distance match_)).
Proof.
  intros Hok Hcaps Hnd Hi.
  destruct (assemble_spec TAXONOMY_LEVELS results seq_ids top_n i seq_id
              Hok Hcaps Hnd Hi) as (table & records & Hrun & Htable & Hlen & Hrecs).
  exists table, records. split_and!; [done..|].
  intros j level m value hit Hj Hlevel Hslot Hvalue Hne Hhit.
  destruct (Hrecs j Hj) as (r & Hr & Hlevels).
  exists r. split; [done|].
  specialize (Hlevels level Hlevel). unfold level_recorded, Result in Hlevels.
  rewrite Hslot, Hvalue in Hlevels. simpl in Hlevels.
  rewrite decide_True, Hhit in Hlevels by done. done.
Qed.

(** X7. When no level is called [Rank] once capitalised, every record
    keeps its two leading columns: [Sequence_ID] is the identifier and
    [Rank] is the rank counted from 1. *)
Theorem records_keep_id_and_rank results seq_ids top_n i seq_id :
  engine_contract TAXONOMY_LEVELS results →
  NoDup (capitalize <$> TAXONOMY_LEVELS) →
  "Rank" ∉ (capitalize <$> TAXONOMY_LEVELS) →
  NoDup seq_ids →
  seq_ids !! i = Some seq_id →
  ∃ table records,
    assemble TAXONOMY_LEVELS results seq_ids top_n = Continue table
    ∧ table !! seq_id = Some records
    ∧ ∀ j, j < top_n →
        ∃ r : gmap string (cell Score),
          records !! j = Some r
          ∧ r !! "Sequence_ID" = Some (Str seq_id)
          ∧ r !! "Rank" = Some (Int (j + 1)).
Proof.
  intros Hok Hcaps Hrank Hnd Hi.
  destruct (assemble_from_spec TAXONOMY_LEVELS results top_n seq_ids
              Hok Hcaps Hnd 0 ∅) as (table & Hrun & _ & Hrows).
  destruct (Hrows i seq_id Hi) as (records & Htable & Hlen & Hrecs).
  exists table, records. split_and!; [done..|].
  intros j Hj. destruct (Hrecs j Hj) as (r & Hr & Hrec).
  exists r. split; [done|].
  destruct (assemble_record_frame results seq_id i j Hok Hcaps)
    as (r' & Hr' & Hframe).
  simpl in Hrec. rewrite Hrec in Hr'. injection Hr' as <-.
  assert (∀ level, level ∈ TAXONOMY_LEVELS → capitalize level ≠ "Rank") as Hne.
  { intros level Hin Heq. apply Hrank. rewrite <- Heq.
    by apply list_elem_of_fmap_2. }
  split; rewrite Hframe.
  - by rewrite lookup_insert_ne, lookup_insert_eq.
  - intros level Hin. by apply fixed_columns_not_level_keys, Hne.
  - by rewrite lookup_insert_eq.
  - intros level Hin. by apply fixed_columns_not_level_keys, Hne.
Qed.

(** X8. In every record, every level has a label, which is a string; its
    hit column and its similarity column are both present when the slot
    [results[level][i][j]] exists and both absent when it does not. *)
Theorem level_columns_go_together results seq_ids top_n i seq_id :
  engine_contract TAXONOMY_LEVELS results →
  NoDup (capitalize <$> TAXONOMY_LEVELS) →
  NoDup seq_ids →
  seq_ids !! i = Some seq_id →
  ∃ table records,
    assemble TAXONOMY_LEVELS results seq_ids top_n = Continue table
    ∧ table !! seq_id = Some records
    ∧ ∀ j level, j < top_n → level ∈ TAXONOMY_LEVELS →
        ∃ (r : gmap string (cell Score)) label,
          records !! j = Some r
          ∧ r !! capitalize level = Some (Str label)
          ∧ (is_Some (r !! hit_key (capitalize level))
             ↔ is_Some (slot results level i j))
          ∧ (is_Some (r !! similarity_key (capitalize level))
             ↔ is_Some (slot results level i j)).
Proof.
  intros Hok Hcaps Hnd Hi.
  destruct (assemble_spec TAXONOMY_LEVELS results seq_ids top_n i seq_id
              Hok Hcaps Hnd Hi) as (table & records & Hrun & Htable & Hlen & Hrecs).
  exists table, records. split_and!; [done..|].
  intros j level Hj Hlevel.
  destruct (Hrecs j Hj) as (r & Hr & Hlevels).
  specialize (Hlevels level Hlevel). unfold level_recorded, Result in Hlevels.
  destruct (slot results level i j) as [m|] eqn:Hslot.
  - assert (is_Some (m_id m)) as [hit Hhit].
    { destruct (Hok level Hlevel) as (per_seq & Hl & Hids).
      unfold slot, SearchResults in *. rewrite Hl in Hslot.
      destruct (per_seq !! i) as [ranked|] eqn:Hranked; [|done]. simpl in Hslot.
      eapply Forall_lookup_1 in Hids; [|done].
      by eapply Forall_lookup_1 in Hids. }
    rewrite Hhit in Hlevels. case_decide; destruct Hlevels as (Hl & Hh & Hs);
      eexists r, _; rewrite Hl, Hh, Hs; split_and!; try done;
      split; intros _; by eexists.
  - rewrite !lookup_empty in Hlevels. destruct Hlevels as (Hl & Hh & Hs).
    exists r, no_match_found. rewrite Hl, Hh, Hs.
    split_and!; [done..| |]; split; intros [? ?]; done.
Qed.

(** The loop over the identifiers: the keys of the table are the
    identifiers, each with [top_n] records. *)
Lemma assemble_from_dom results top_n seq_ids :
  engine_contract TAXONOMY_LEVELS results →
  ∀ i0 (acc : gmap string (list (gmap string (cell Score)))),
  ∃ table,
    assemble_from TAXONOMY_LEVELS results top_n i0 seq_ids acc = Continue table
    ∧ (∀ x, x ∉ seq_ids → table !! x = acc !! x)
    ∧ ∀ x, x ∈ seq_ids →
        ∃ records, table !! x = Some records ∧ length records = top_n.
Proof.
  intros Hok. induction seq_ids as [|seq_id rest IH]; intros i0 acc.
  { exists acc. split_and!; [done..|]. intros x Hx. by apply elem_of_nil in Hx. }
  destruct (mapM_Continue (assemble_record TAXONOMY_LEVELS results seq_id i0)
              (seq 0 top_n)) as (records & Hrecords & Hlen & _).
  { intros j _. by apply assemble_levels_total. }
  destruct (IH (S i0) (<[seq_id := records]> acc)) as (table & Hrun & Hframe & Hrows).
  exists table. split_and!.
  - simpl. rewrite Hrecords. done.
  - intros x [Hne Hx]%not_elem_of_cons.
    by rewrite Hframe, lookup_insert_ne.
  - intros x Hx. destruct (decide (x ∈ rest)) as [Hin|Hnin]; [by apply Hrows|].
    apply elem_of_cons in Hx as [-> | ?]; [|done].
    exists records. rewrite Hframe, lookup_insert_eq by done.
    by rewrite length_seq in Hlen.
Qed.

(** The keys of the table and the length of its lists, for any list of
    identifiers. *)
Lemma assemble_table_keys results seq_ids top_n :
  engine_contract TAXONOMY_LEVELS results →
  ∃ table : gmap string (list (gmap string (cell Score))),
    assemble TAXONOMY_LEVELS results seq_ids top_n = Continue table
    ∧ dom table = list_to_set seq_ids
    ∧ ∀ seq_id records, table !! seq_id = Some records →
        length records = top_n.
Proof.
  intros Hok.
  destruct (assemble_from_dom results top_n seq_ids Hok 0 ∅)
    as (table & Hrun & Hframe & Hrows).
  exists table. unfold Result in *. split_and!; [done| |].
  - apply set_eq. intros x. rewrite elem_of_dom, elem_of_list_to_set. split.
    + intros Hsome. destruct (decide (x ∈ seq_ids)) as [|Hnin]; [done|].
      rewrite (Hframe x Hnin), lookup_empty in Hsome. by destruct Hsome.
    + intros Hin. destruct (Hrows x Hin) as (records & -> & _). by eexists.
  - intros seq_id records Hlookup.
    destruct (decide (seq_id ∈ seq_ids)) as [Hin|Hnin].
    + destruct (Hrows seq_id Hin) as (records' & Hlookup' & Hlen). congruence.
    + by rewrite (Hframe seq_id Hnin), lookup_empty in Hlookup.
Qed.

(** X9. Whatever the identifiers are, even repeated ones, the table has
    exactly them as keys, and every one of them has [top_n] records. *)
Theorem table_has_a_list_per_identifier results seq_ids top_n :
  engine_contract TAXONOMY_LEVELS results →
  ∃ table : gmap string (list (gmap string (cell Score))),
    assemble TAXONOMY_LEVELS results seq_ids top_n = Continue table
    ∧ dom table = list_to_set seq_ids
    ∧ ∀ seq_id records, table !! seq_id = Some records →
        length records = top_n.
Proof. apply assemble_table_keys. Qed.

End AssemblerExtras.

Lemma populated_slot_is_recorded_witness :
  ∃ table records (r : gmap string (cell nat)),
    assemble sample_levels sample_results ["s0"] 1 = Continue table
    ∧ table !! "s0" = Some records
    ∧ records !! 0 = Some r
    ∧ r !! "Phylum" = Some (Str "Ascomycota")
    ∧ r !! "Phylum_Hit" = Some (Str "KY106088")
    ∧ r !! "Phylum_Similarity" = Some (Float 987).
Proof.
  destruct (populated_slot_is_recorded sample_levels sample_results ["s0"] 1 0 "s0"
              sample_results_contract sample_levels_columns)
    as (table & records & Hrun & Htable & Hfilled).
  - apply (bool_decide_unpack _). vm_compute. exact I.
  - reflexivity.
  - destruct (Hfilled 0 "phylum" sample_match "Ascomycota" "KY106088")
      as (r & Hr & Hlabel & Hhit & Hsim).
    + lia.
    + apply (bool_decide_unpack _). vm_compute. exact I.
    + vm_compute. reflexivity.
    + vm_compute. reflexivity.
    + discriminate.
    + reflexivity.
    + exists table, records, r.
      split_and!; [exact Hrun|exact Htable|exact Hr|exact Hlabel|exact Hhit|exact Hsim].
Defined.

Lemma records_keep_id_and_rank_witness :
  ∃ table records (r : gmap string (cell nat)),
    assemble sample_levels sample_results ["s0"] 3 = Continue table
    ∧ table !! "s0" = Some records
    ∧ records !! 2 = Some r
    ∧ r !! "Sequence_ID" = Some (Str "s0")
    ∧ r !! "Rank" = Some (Int 3).
Proof.
  destruct (records_keep_id_and_rank sample_levels sample_results ["s0"] 3 0 "s0"
              sample_results_contract sample_levels_columns)
    as (table & records & Hrun & Htable & Hcolumns).
  - apply (bool_decide_unpack _). vm_compute. exact I.
  - apply (bool_decide_unpack _). vm_compute. exact I.
  - reflexivity.
  - destruct (Hcolumns 2) as (r & Hr & Hid & Hrank); [lia|].
    exists table, records, r.
    split_and!; [exact Hrun|exact Htable|exact Hr|exact Hid|exact Hrank].
Defined.

Lemma level_columns_go_together_witness :
  ∃ table records (r : gmap string (cell nat)),
    assemble sample_levels sample_results ["s0"] 2 = Continue table
    ∧ table !! "s0" = Some records
    ∧ records !! 1 = Some r
    ∧ ¬ is_Some (r !! "Species_Hit")
    ∧ ¬ is_Some (r !! "Species_Similarity").
Proof.
  destruct (level_columns_go_together sample_levels sample_results ["s0"] 2 0 "s0"
              sample_results_contract sample_levels_columns)
    as (table & records & Hrun & Htable & Hcolumns).
  - apply (bool_decide_unpack _). vm_compute. exact I.
  - reflexivity.
  - destruct (Hcolumns 1 "species") as (r & label & Hr & _ & Hhit & Hsim).
    + lia.
    + apply (bool_decide_unpack _). vm_compute. exact I.
    + exists table, records, r.
      split_and!; [exact Hrun|exact Htable|exact Hr| |].
      * intros Hsome. apply Hhit in Hsome. vm_compute in Hsome.
        destruct Hsome as [m Hm]. discriminate Hm.
      * intros Hsome. apply Hsim in Hsome. vm_compute in Hsome.
        destruct Hsome as [m Hm]. discriminate Hm.
Defined.

Lemma table_has_a_list_per_identifier_witness :
  ∃ table : gmap string (list (gmap string (cell nat))),
    assemble sample_levels sample_results ["s0"; "s1"; "s0"] 2 = Continue table
    ∧ dom table = {["s0"; "s1"]}.
Proof.
  destruct (table_has_a_list_per_identifier sample_levels sample_results
              ["s0"; "s1"; "s0"] 2 sample_results_contract)
    as (table & Hrun & Hdom & _).
  exists table. split; [exact Hrun|].
  rewrite Hdom. vm_compute. reflexivity.
Defined.

Section AssemblerErrors.

Context {Score : Type}.
Variable TAXONOMY_LEVELS : list string.

Implicit Types (results : gmap string (list (list (Match Score)))).

(** X10. When a taxonomy level is missing from the results of the engine,
    the levels before it being there, the assembly of a non-empty list of
    identifiers with [top_n] at least 1 ends with an uncaught [KeyError]
    for that level: only an index out of range is caught. *)
Theorem missing_level_raises results seq_ids top_n before level after :
  TAXONOMY_LEVELS = before ++ level :: after →
  (∀ l, l ∈ before →
     ∃ per_seq, results !! l = Some per_seq
                ∧ Forall (Forall (λ match_, is_Some (m_id match_))) per_seq) →
  results !! level = None →
  seq_ids ≠ [] → 0 < top_n →
  assemble TAXONOMY_LEVELS results seq_ids top_n = Raised (KeyError level).
Proof.
  intros Hlevels Hbefore Hnone Hids Htop.
  destruct seq_ids as [|seq_id rest]; [done|].
  destruct top_n as [|n]; [lia|].
  assert (assemble_record TAXONOMY_LEVELS results seq_id 0 0
          = Raised (KeyError level)) as Hrecord.
  { unfold assemble_record. rewrite Hlevels, foldM_app.
    match goal with
    | |- context [foldM _ ?init before] =>
        destruct (assemble_levels_total results 0 0 before init Hbefore)
          as (mid & Hmid)
    end.
    assert (assemble_level results 0 0 mid level = Raised (KeyError level))
      as Hlevel.
    { unfold assemble_level, SearchResults. by rewrite Hnone. }
    rewrite Hmid. simpl. by rewrite Hlevel. }
  unfold assemble.
  change (assemble_from TAXONOMY_LEVELS results (S n) 0 (seq_id :: rest) ∅)
    with (records ← (r ← assemble_record TAXONOMY_LEVELS results seq_id 0 0;
                     rs ← mapM (assemble_record TAXONOMY_LEVELS results seq_id 0)
                            (seq 1 n);
                     mret (r :: rs));
          assemble_from TAXONOMY_LEVELS results (S n) 1 rest
            (<[seq_id := records]> ∅)).
  by rewrite Hrecord.
Qed.

(** X11. After the mismatch error, the count check shows nothing when
    every submitted identifier is carried by some match; otherwise it
    shows the warning and then one line per submitted identifier that no
    match carries, each such identifier once. *)
Theorem unprocessed_ids_are_listed_once results seq_ids first_level per_seq :
  engine_contract TAXONOMY_LEVELS results →
  TAXONOMY_LEVELS !! 0 = Some first_level →
  results !! first_level = Some per_seq →
  length per_seq ≠ length seq_ids →
  let carried x :=
    ∃ level slots match_,
      level ∈ TAXONOMY_LEVELS ∧ results !! level = Some slots
      ∧ match_ ∈ concat slots ∧ m_id match_ = Some x in
  ∃ lines,
    check_counts TAXONOMY_LEVELS results seq_ids
    = Continue
        (StError (mismatch_text (length seq_ids) (length per_seq))
         :: if decide (lines = []) then []
            else StWarning "The following sequences were not processed:"
                 :: lines)
    ∧ NoDup lines
    ∧ (∀ w, w ∈ lines →
         ∃ x, w = StWrite ("- " +:+ x) ∧ x ∈ seq_ids ∧ ¬ carried x)
    ∧ (∀ x, x ∈ seq_ids → ¬ carried x → StWrite ("- " +:+ x) ∈ lines).
Proof.
  intros Hok Hfirst Hslots Hcount carried.
  destruct (collect_processed_ids_spec TAXONOMY_LEVELS results Hok)
    as (processed & Hprocessed & Hin).
  set (unprocessed := (list_to_set seq_ids ∖ processed : gset string)).
  assert (∀ x, x ∈ unprocessed ↔ x ∈ seq_ids ∧ ¬ carried x) as Hun.
  { intros x. unfold unprocessed.
    by rewrite elem_of_difference, elem_of_list_to_set, Hin. }
  exists ((λ x, StWrite ("- " +:+ x)) <$> elements unprocessed).
  split_and!.
  - unfold check_counts, SearchResults.
    rewrite Hfirst, Hslots, decide_True by done.
    rewrite Hprocessed. simpl. fold unprocessed. do 2 f_equal.
    destruct (decide (unprocessed = ∅)) as [Hempty|Hne].
    + by rewrite Hempty, elements_empty.
    + rewrite decide_False; [done|].
      intros Hnil. apply fmap_nil_inv in Hnil.
      by apply elements_empty_inv, leibniz_equiv in Hnil.
  - apply NoDup_fmap_2; [|apply NoDup_elements].
    intros x y Heq. by simplify_eq.
  - intros w (x & -> & Hx)%list_elem_of_fmap.
    exists x. split; [done|]. by apply Hun, elem_of_elements.
  - intros x Hx Hnot.
    apply (list_elem_of_fmap_2 (λ x, StWrite ("- " +:+ x))).
    by apply elem_of_elements, Hun.
Qed.

End AssemblerErrors.

Lemma missing_level_raises_witness :
  assemble sample_levels (delete "order" sample_results) ["s0"] 1
  = Raised (KeyError "order").
Proof.
  apply (missing_level_raises sample_levels (delete "order" sample_results)
           ["s0"] 1 ["phylum"; "class"] "order" ["family"; "genus"; "species"]).
  - reflexivity.
  - intros l Hl.
    repeat (apply elem_of_cons in Hl as [-> | Hl]);
      try (by apply elem_of_nil in Hl);
      (eexists; split; [vm_compute; reflexivity|repeat constructor; by eexists]).
  - vm_compute. reflexivity.
  - discriminate.
  - lia.
Defined.

Lemma unprocessed_ids_are_listed_once_witness :
  ∃ lines,
    check_counts sample_levels sample_results ["s0"; "KY106088"]
    = Continue
        (StError (mismatch_text 2 1)
         :: if decide (lines = []) then []
            else StWarning "The following sequences were not processed:"
                 :: lines)
    ∧ NoDup lines
    ∧ StWrite "- s0" ∈ lines.
Proof.
  destruct (unprocessed_ids_are_listed_once sample_levels sample_results
              ["s0"; "KY106088"] "phylum" [[sample_match]] sample_results_contract)
    as (lines & Hshown & Hnd & _ & Hlisted).
  - reflexivity.
  - vm_compute. reflexivity.
  - simpl. lia.
  - exists lines. split_and!; [exact Hshown|exact Hnd|].
    apply Hlisted; [left|].
    intros (level & slots & m & Hlevel & Hslots & Hm & Hid).
    unfold sample_levels in Hlevel.
    repeat (apply elem_of_cons in Hlevel as [-> | Hlevel]);
      try (by apply elem_of_nil in Hlevel);
      vm_compute in Hslots; injection Hslots as <-;
      simpl in Hm; apply list_elem_of_singleton in Hm as ->;
      discriminate Hid.
Defined.

(** ** Loops whose only exception is a given one *)

Lemma foldM_raises {A B} (x : exception) (f : B → A → script B) (l : list A) (b : B) :
  (∀ b' a, a ∈ l → returns_or_raises x (f b' a)) →
  (∃ a, a ∈ l ∧ ∀ b', f b' a = Raised x) →
  foldM f b l = Raised x.
Proof.
  revert b. induction l as [|a l IH]; intros b Hall (bad & Hin & Hbad).
  { by apply elem_of_nil in Hin. }
  simpl. destruct (Hall b a) as [[b1 Hb1]|Hraise]; [left| |by rewrite Hraise].
  rewrite Hb1. simpl. apply elem_of_cons in Hin as [-> | Hin].
  { rewrite Hbad in Hb1. done. }
  apply IH; [|by exists bad]. intros b' a' Ha'. apply Hall. by right.
Qed.

Lemma foldM_returns_or_raises {A B} (x : exception) (f : B → A → script B)
    (l : list A) (b : B) :
  (∀ b' a, a ∈ l → returns_or_raises x (f b' a)) →
  returns_or_raises x (foldM f b l).
Proof.
  revert b. induction l as [|a l IH]; intros b Hall; [left; by exists b|].
  simpl. destruct (Hall b a) as [[b1 Hb1]|Hraise]; [left| |right; by rewrite Hraise].
  rewrite Hb1. simpl. apply IH. intros b' a' Ha'. apply Hall. by right.
Qed.

Lemma mapM_raises {A B} (x : exception) (f : A → script B) (l : list A) :
  (∀ a, a ∈ l → returns_or_raises x (f a)) →
  (∃ a, a ∈ l ∧ f a = Raised x) →
  mapM f l = Raised x.
Proof.
  induction l as [|a l IH]; intros Hall (bad & Hin & Hbad).
  { by apply elem_of_nil in Hin. }
  simpl. destruct (Hall a) as [[b Hb]|Hraise]; [left| |by rewrite Hraise].
  rewrite Hb. simpl. apply elem_of_cons in Hin as [-> | Hin]; [congruence|].
  rewrite IH; [done| |by exists bad]. intros a' Ha'. apply Hall. by right.
Qed.

Lemma mapM_returns_or_raises {A B} (x : exception) (f : A → script B) (l : list A) :
  (∀ a, a ∈ l → returns_or_raises x (f a)) →
  returns_or_raises x (mapM f l).
Proof.
  induction l as [|a l IH]; intros Hall; [left; by exists []|].
  simpl. destruct (Hall a) as [[b Hb]|Hraise]; [left| |right; by rewrite Hraise].
  rewrite Hb. simpl. destruct IH as [[bs Hbs]|Hraise].
  { intros a' Ha'. apply Hall. by right. }
  - left. exists (b :: bs). by rewrite Hbs.
  - right. by rewrite Hraise.
Qed.

Section MissingIdentifier.

Context {Score : Type}.
Variable TAXONOMY_LEVELS : list string.

Implicit Types (results : gmap string (list (list (Match Score)))).

Lemma assemble_level_returns_or_raises results i j before level :
  is_Some (results !! level) →
  returns_or_raises (KeyError "id") (assemble_level results i j before level).
Proof.
  intros [per_seq Hlevel]. unfold assemble_level, SearchResults. rewrite Hlevel.
  destruct (per_seq !! i ≫= (.!! j)) as [m|]; [|left; by eexists].
  case_decide; [|left; by eexists].
  destruct (m_id m); [left; by eexists|by right].
Qed.

Lemma assemble_record_returns_or_raises results seq_id i j :
  (∀ level, level ∈ TAXONOMY_LEVELS → is_Some (results !! level)) →
  returns_or_raises (KeyError "id")
    (assemble_record TAXONOMY_LEVELS results seq_id i j).
Proof.
  intros Hpresent. apply foldM_returns_or_raises.
  intros before level Hin. by apply assemble_level_returns_or_raises, Hpresent.
Qed.

Lemma assemble_from_raises results top_n seq_ids k seq_id :
  (∀ level, level ∈ TAXONOMY_LEVELS → is_Some (results !! level)) →
  seq_ids !! k = Some seq_id →
  ∀ i0 acc,
    mapM (assemble_record TAXONOMY_LEVELS results seq_id (i0 + k)) (seq 0 top_n)
    = Raised (KeyError "id") →
    assemble_from TAXONOMY_LEVELS results top_n i0 seq_ids acc
    = Raised (KeyError "id").
Proof.
  intros Hpresent. revert k.
  induction seq_ids as [|first rest IH]; intros k Hk i0 acc Hrows; [done|].
  simpl.
  destruct (mapM_returns_or_raises (KeyError "id")
              (assemble_record TAXONOMY_LEVELS results first i0) (seq 0 top_n))
    as [[records Hrecords]|Hraise].
  { intros j _. by apply assemble_record_returns_or_raises. }
  - rewrite Hrecords. simpl. destruct k as [|k]; simpl in Hk.
    + injection Hk as ->. rewrite Nat.add_0_r in Hrows. congruence.
    + apply (IH k Hk). by rewrite Nat.add_succ_comm.
  - by rewrite Hraise.
Qed.

(** X12. A match that has a non-empty value for a level but no identifier
    makes the whole assembly end with an uncaught [KeyError] for ["id"],
    when it sits at a position and rank the assembler reads and every
    level is present in the results. *)
Theorem match_without_id_raises results seq_ids top_n i seq_id j level match_ :
  (∀ l, l ∈ TAXONOMY_LEVELS → is_Some (results !! l)) →
  seq_ids !! i = Some seq_id →
  j < top_n →
  level ∈ TAXONOMY_LEVELS →
  slot results level i j = Some match_ →
  default "" (m_entity match_ !! level) ≠ "" →
  m_id match_ = None →
  assemble TAXONOMY_LEVELS results seq_ids top_n = Raised (KeyError "id").
Proof.
  intros Hpresent Hi Hj Hlevel Hslot Hvalue Hid.
  apply (assemble_from_raises results top_n seq_ids i seq_id Hpresent Hi).
  change (0 + i) with i. apply mapM_raises.
  { intros j' _. by apply assemble_record_returns_or_raises. }
  exists j. split; [apply elem_of_seq; lia|].
  apply foldM_raises.
  { intros before l Hl. by apply assemble_level_returns_or_raises, Hpresent. }
  exists level. split; [done|]. intros before.
  unfold slot in Hslot. unfold assemble_level, SearchResults in *.
  destruct (results !! level) as [per_seq|]; [|done].
  rewrite Hslot. rewrite decide_True by done. by rewrite Hid.
Qed.

End MissingIdentifier.

Lemma match_without_id_raises_witness :
  assemble sample_levels anonymous_results ["s0"] 1 = Raised (KeyError "id").
Proof.
  apply (match_without_id_raises sample_levels anonymous_results ["s0"] 1
           0 "s0" 0 "phylum" anonymous_match).
  - intros l Hl. unfold sample_levels in Hl.
    repeat (apply elem_of_cons in Hl as [-> | Hl]);
      try (by apply elem_of_nil in Hl); vm_compute; eexists; reflexivity.
  - reflexivity.
  - lia.
  - apply (bool_decide_unpack _). vm_compute. exact I.
  - vm_compute. reflexivity.
  - vm_compute. discriminate.
  - reflexivity.
Defined.

(** ** The rows of the export *)

Lemma insertion_order_NoDup (seen keys : list string) :
  NoDup keys → (∀ key, key ∈ keys → key ∉ seen) →
  insertion_order seen keys = keys.
Proof.
  intros Hnd. revert seen.
  induction Hnd as [|key keys Hfresh Hnd IH]; intros seen Hseen; [done|].
  simpl. rewrite decide_False by (apply Hseen; left).
  f_equal. apply IH. intros k Hk [-> | Hin]%elem_of_cons; [done|].
  apply (Hseen k); [by right|done].
Qed.

Lemma bind_uniform {A B} (f : A → list B) (n : nat) (l : list A) :
  (∀ x, x ∈ l → length (f x) = n) →
  length (l ≫= f) = length l * n
  ∧ ∀ i x j, l !! i = Some x → j < n → (l ≫= f) !! (i * n + j) = f x !! j.
Proof.
  induction l as [|a l IH]; intros Hlen; [done|].
  destruct IH as [IHlen IHnth]. { intros x Hx. apply Hlen. by right. }
  pose proof (Hlen a ltac:(left)) as Ha.
  rewrite bind_cons. split.
  - rewrite length_app, IHlen, Ha. simpl. lia.
  - intros [|i] x j Hx Hj; simpl in Hx.
    + injection Hx as <-. simpl. rewrite lookup_app_l; [done|lia].
    + rewrite lookup_app_r by lia.
      replace (S i * n + j - length (f a)) with (i * n + j) by lia.
      by apply IHnth.
Qed.

Section ExportRows.

Context {Score : Type}.
Variable TAXONOMY_LEVELS : list string.

Implicit Types (results : gmap string (list (list (Match Score)))).

(** X13. For pairwise different identifiers, the export has one row per
    identifier and rank: [top_n] rows for the first identifier, then
    [top_n] for the second, and so on; the row at place
    [i * top_n + j] is the record assembled for position [i] and rank
    [j]. *)
Theorem export_has_a_row_per_rank results seq_ids top_n :
  engine_contract TAXONOMY_LEVELS results →
  NoDup (capitalize <$> TAXONOMY_LEVELS) →
  NoDup seq_ids →
  ∃ table : gmap string (list (gmap string (cell Score))),
    assemble TAXONOMY_LEVELS results seq_ids top_n = Continue table
    ∧ length (combined_results seq_ids table) = length seq_ids * top_n
    ∧ ∀ i seq_id j, seq_ids !! i = Some seq_id → j < top_n →
        ∃ r, combined_results seq_ids table !! (i * top_n + j) = Some r
             ∧ assemble_record TAXONOMY_LEVELS results seq_id i j = Continue r.
Proof.
  intros Hok Hcaps Hnd.
  destruct (assemble_from_spec TAXONOMY_LEVELS results top_n seq_ids
              Hok Hcaps Hnd 0 ∅) as (table & Hrun & _ & Hrows).
  exists table. split; [done|].
  unfold combined_results.
  rewrite insertion_order_NoDup; [|done|intros ? _; apply not_elem_of_nil].
  destruct (bind_uniform (λ seq_id, default [] (table !! seq_id)) top_n seq_ids)
    as [Hlen Hnth].
  { intros x [k Hk]%list_elem_of_lookup.
    destruct (Hrows k x Hk) as (records & Htable & Hl & _).
    unfold Result in *. by rewrite Htable. }
  split; [done|]. intros i seq_id j Hi Hj.
  destruct (Hrows i seq_id Hi) as (records & Htable & _ & Hrecs).
  destruct (Hrecs j Hj) as (r & Hr & Hrec).
  exists r. split; [|done].
  etrans; [apply (Hnth i seq_id j Hi Hj)|]. unfold Result in *.
  by rewrite Htable.
Qed.

End ExportRows.

Lemma export_has_a_row_per_rank_witness :
  ∃ table : gmap string (list (gmap string (cell nat))),
    assemble sample_levels sample_results ["s0"; "s1"] 3 = Continue table
    ∧ length (combined_results ["s0"; "s1"] table) = 6.
Proof.
  destruct (export_has_a_row_per_rank sample_levels sample_results ["s0"; "s1"] 3
              sample_results_contract sample_levels_columns)
    as (table & Hrun & Hlen & _).
  - apply (bool_decide_unpack _). vm_compute. exact I.
  - exists table. split; [exact Hrun|exact Hlen].
Defined.

(** ** More on the temporary file *)

Section TempFileExtras.

Context {Results EngineFailure : Type}.
Variable search : gmap string string → string → string * nat →
                  gmap string string * (EngineFailure + Results).
Variable temp_name : gmap string string → string.

(** X14. Whatever the engine does to the file system and whatever it
    returns or raises, after the run the temporary file does not exist,
    every other path holds what the engine left there, nothing is buffered
    and the last thing that happened is the closing of the file object. *)
Theorem temp_file_gone_whatever_engine fasta_content settings w :
  let name := temp_name (files w) in
  let engine := search (<[name := fasta_content]> (files w)) name settings in
  let run := process_fasta_and_run Results EngineFailure search temp_name
               fasta_content settings w in
  files run.1 !! name = None
  ∧ (∀ path, path ≠ name → files run.1 !! path = engine.1 !! path)
  ∧ buffer run.1 = ""
  ∧ last (trace run.1) = Some (Closed name).
Proof.
  intros name engine run. subst run.
  rewrite process_fasta_and_run_unfold. fold name. fold engine.
  destruct (engine.1 !! name) eqn:Hname; simpl.
  - split_and!; [apply lookup_delete_eq| |done|].
    + intros path Hpath. by rewrite lookup_delete_ne.
    + by rewrite last_app.
  - split_and!; [done..|]. by rewrite last_app.
Qed.

(** X15. When the engine removed the file it was given, [os.unlink] raises
    and the run ends with [FileNotFoundError] for the temporary path,
    whether the engine had returned matches or raised: the outcome of the
    engine is lost. Nothing is unlinked, and the file object is closed. *)
Theorem removed_file_masks_engine_outcome fasta_content settings w :
  let name := temp_name (files w) in
  let engine := search (<[name := fasta_content]> (files w)) name settings in
  let run := process_fasta_and_run Results EngineFailure search temp_name
               fasta_content settings w in
  engine.1 !! name = None →
  run.2 = inl (FileNotFoundError name)
  ∧ trace run.1
    = trace w ++ [Created name; Written name fasta_content; Flushed name;
                  Searched name (Some fasta_content); Closed name]
  ∧ files run.1 = engine.1.
Proof.
  intros name engine run Hgone. subst run.
  rewrite process_fasta_and_run_unfold. fold name. fold engine.
  rewrite Hgone. simpl. by rewrite <- app_assoc.
Qed.

(** X16. When the name of the temporary file is not in use and the engine
    leaves the file system as it found it, the file system after the run
    is the one before the run. *)
Theorem file_system_is_restored fasta_content settings w :
  let name := temp_name (files w) in
  let on_disk := <[name := fasta_content]> (files w) in
  let run := process_fasta_and_run Results EngineFailure search temp_name
               fasta_content settings w in
  files w !! name = None →
  (search on_disk name settings).1 = on_disk →
  files run.1 = files w.
Proof.
  intros name on_disk run Hfresh Hframe. subst run.
  rewrite process_fasta_and_run_unfold.
  change (temp_name (files w)) with name.
  change (<[name := fasta_content]> (files w)) with on_disk.
  rewrite !Hframe. unfold on_disk. rewrite lookup_insert_eq. simpl.
  by apply delete_insert_id.
Qed.

End TempFileExtras.

Lemma removed_file_masks_engine_outcome_witness :
  (process_fasta_and_run unit string careless_search sample_temp_name
     (sample_fasta 1) ("model", 2) empty_world).2
  = inl (FileNotFoundError "/tmp/tmp0.fasta").
Proof.
  apply (removed_file_masks_engine_outcome careless_search sample_temp_name
           (sample_fasta 1) ("model", 2) empty_world).
  vm_compute. reflexivity.
Defined.

Lemma file_system_is_restored_witness :
  files (process_fasta_and_run unit string failing_search sample_temp_name
           (sample_fasta 1) ("model", 2)
           {| files := {["/data/ref.fasta" := ">r"]}; buffer := ""; trace := [] |}).1
  = {["/data/ref.fasta" := ">r"]}.
Proof.
  pose proof (file_system_is_restored failing_search sample_temp_name
                (sample_fasta 1) ("model", 2)
                {| files := {["/data/ref.fasta" := ">r"]}; buffer := "";
                   trace := [] |}) as Hrestored.
  simpl in Hrestored. apply Hrestored.
  - vm_compute. reflexivity.
  - reflexivity.
Defined.

(** ** The script never stops after validation *)

Lemma foldM_never_stopped {A B} (f : B → A → script B) (l : list A) (b : B) :
  (∀ b' a, never_stopped (f b' a)) → never_stopped (foldM f b l).
Proof.
  intros Hf. revert b. induction l as [|a l IH]; intros b e; simpl; [done|].
  destruct (f b a) as [b1|e1|x] eqn:Hstep; simpl; [apply IH| |done].
  by destruct (Hf b a e1).
Qed.

Lemma mapM_never_stopped {A B} (f : A → script B) (l : list A) :
  (∀ a, never_stopped (f a)) → never_stopped (mapM f l).
Proof.
  intros Hf. induction l as [|a l IH]; intros e; simpl; [done|].
  destruct (f a) as [b|e1|x] eqn:Hstep; simpl; [| |done].
  - destruct (mapM f l) as [bs|e2|x]; simpl; [done| |done].
    by destruct (IH e2).
  - by destruct (Hf a e1).
Qed.

Section NeverStopped.

Context {Score : Type}.
Variable TAXONOMY_LEVELS : list string.

Implicit Types (results : gmap string (list (list (Match Score)))).

Lemma assemble_never_stopped results seq_ids top_n :
  never_stopped (assemble TAXONOMY_LEVELS results seq_ids top_n).
Proof.
  unfold assemble. generalize 0. generalize (∅ : gmap string (list (Result Score))).
  induction seq_ids as [|seq_id rest IH]; intros acc i0 e; simpl; [done|].
  destruct (mapM _ _) as [records|e1|x] eqn:Hrows; simpl; [apply IH| |done].
  exfalso. refine (mapM_never_stopped _ _ _ e1 Hrows). intros j.
  apply foldM_never_stopped. intros before level e2.
  unfold assemble_level, SearchResults. intros Hstop.
  destruct (results !! level) as [per_seq|]; [|discriminate].
  destruct (per_seq !! i0 ≫= (.!! j)) as [m|]; [|discriminate].
  case_decide; [|discriminate]. destruct (m_id m); discriminate.
Qed.

Lemma check_counts_never_stopped results seq_ids :
  never_stopped (check_counts TAXONOMY_LEVELS results seq_ids).
Proof.
  intros e. unfold check_counts, SearchResults. intros Hstop.
  destruct (TAXONOMY_LEVELS !! 0) as [first_level|]; [|discriminate].
  destruct (results !! first_level) as [per_seq|]; [|discriminate].
  case_decide; [|discriminate].
  destruct (collect_processed_ids _ _) as [processed|e1|x] eqn:Hloop;
    simpl in Hstop; [discriminate| |discriminate].
  exfalso. refine (foldM_never_stopped _ _ _ _ e1 Hloop). intros acc level e2.
  unfold SearchResults. intros Hlevel.
  destruct (results !! level); discriminate.
Qed.

Lemma report_and_assemble_never_stopped results seq_ids top_n :
  never_stopped (report_and_assemble TAXONOMY_LEVELS results seq_ids top_n).
Proof.
  intros e. unfold report_and_assemble. intros Hstop.
  destruct (check_counts _ _ _) as [shown|e1|x] eqn:Hcheck; simpl in Hstop;
    [| |discriminate].
  - destruct (assemble _ _ _ _) as [table|e2|x] eqn:Htable; simpl in Hstop;
      [discriminate| |discriminate].
    by destruct (assemble_never_stopped results seq_ids top_n e2).
  - by destruct (check_counts_never_stopped results seq_ids e1).
Qed.

(** The count check ends without an exception when the engine kept its
    promise and there is a first level. *)
Lemma check_counts_total results seq_ids first_level :
  engine_contract TAXONOMY_LEVELS results →
  TAXONOMY_LEVELS !! 0 = Some first_level →
  ∃ shown, check_counts TAXONOMY_LEVELS results seq_ids = Continue shown
           ∧ ∀ per_seq, results !! first_level = Some per_seq →
                        length per_seq = length seq_ids → shown = [].
Proof.
  intros Hok Hfirst. unfold check_counts, SearchResults in *. rewrite Hfirst.
  destruct (Hok first_level) as (per_seq & Hslots & _).
  { by eapply list_elem_of_lookup_2. }
  unfold SearchResults in Hslots. rewrite Hslots.
  destruct (collect_processed_ids_spec TAXONOMY_LEVELS results Hok)
    as (processed & Hprocessed & _).
  case_decide as Hcount.
  - rewrite Hprocessed. simpl. eexists. split; [done|].
    intros ? [= <-] ?. done.
  - eexists. split; [done|]. done.
Qed.

End NeverStopped.

(** ** Runs of the page *)

Section PageFacts.

Context {Score EngineFailure : Type}.

Variable parse_fasta : string → string + list (string * string).
Variable parse_unite_fasta_header : string → list string.
Variable TAXONOMY_LEVELS : list string.
Variable search : gmap string string → string → string * nat →
                  gmap string string
                  * (EngineFailure + gmap string (list (list (Match Score)))).
Variable temp_name : gmap string string → string.


Lemma validate_input_content text accepted :
  validate_input parse_fasta parse_unite_fasta_header text = Continue accepted → fasta_content accepted = text.
Proof.
  unfold validate_input. destruct (parse_fasta text) as [e|d]; [done|]. simpl.
  destruct (collect_seq_ids _ _ _) as [ids|e|x]; simpl; [|done..].
  repeat case_decide; try done. by intros [= <-].
Qed.

(** The input stage, case by case. *)
Lemma input_stage_cases input (session : session_state Score) :
  (¬ input_given input ∧ input_stage parse_fasta parse_unite_fasta_header input session = Continue clear_session)
  ∨ (input_given input
     ∧ input_stage parse_fasta parse_unite_fasta_header input session
       = (accepted ← validate_input parse_fasta parse_unite_fasta_header (input_text input);
          Continue (store_accepted accepted session))).
Proof.
  destruct input as [text|files]; simpl; case_decide; subst; auto.
Qed.

Lemma input_stage_valid input (session session1 : session_state Score) :
  input_stage parse_fasta parse_unite_fasta_header input session = Continue session1 → session_valid parse_fasta parse_unite_fasta_header session1.
Proof.
  destruct (input_stage_cases input session) as [[_ ->]|[_ ->]].
  { by intros [= <-]. }
  destruct (validate_input parse_fasta parse_unite_fasta_header (input_text input)) as [accepted|e|x] eqn:Hrun;
    [|done..].
  simpl. intros [= <-]. unfold session_valid. simpl.
  exists accepted. split; [|done].
  by rewrite (validate_input_content _ _ Hrun).
Qed.

(** The run button writes the table and nothing else into the session. *)
Lemma run_button_session model top_n (session : session_state Score) w :
  st_fasta_content (run_button (EngineFailure:=EngineFailure) TAXONOMY_LEVELS search temp_name model top_n session w).1.1
  = st_fasta_content session
  ∧ st_seq_ids (run_button (EngineFailure:=EngineFailure) TAXONOMY_LEVELS search temp_name model top_n session w).1.1 = st_seq_ids session.
Proof.
  unfold run_button. destruct (st_fasta_content session) eqn:Hcontent; [|done].
  destruct (process_fasta_and_run _ _ _ _ _ _ _) as [w' [x|results]]; [done|].
  destruct (st_seq_ids session) eqn:Hids; [|done].
  destruct (report_and_assemble _ _ _ _) as [[shown table]|e|x]; done.
Qed.

(** X4. An input in which the parser finds no record is accepted, not
    refused: the notice announces 0 valid sequences, the session gets an
    empty list of identifiers, and a click on the run button sends the text
    to the engine all the same. *)
Theorem input_without_records_is_searched input model top_n
    (session : session_state Score) w :
  input_given input →
  parse_fasta (input_text input) = inr [] →
  validate_input parse_fasta parse_unite_fasta_header (input_text input)
  = Continue {| notice := "<p style='font-size: smaller; color: gray;'>You provided 0 valid sequences (max: 100)</p>";
                seq_ids := []; fasta_content := input_text input |}
  ∧ st_seq_ids (rerun (EngineFailure:=EngineFailure) parse_fasta
                  parse_unite_fasta_header TAXONOMY_LEVELS search temp_name
                  input true model top_n session w).1.1 = Some []
  ∧ (rerun (EngineFailure:=EngineFailure) parse_fasta parse_unite_fasta_header
       TAXONOMY_LEVELS search temp_name input true model top_n session w).1.2
    = (process_fasta_and_run _ EngineFailure search temp_name
         (input_text input) (model, top_n) w).1.
Proof.
  intros Hgiven Hparse.
  assert (validate_input parse_fasta parse_unite_fasta_header (input_text input)
          = Continue {| notice := accepted_notice 0; seq_ids := [];
                        fasta_content := input_text input |}) as Hvalid.
  { unfold validate_input. by rewrite Hparse. }
  split; [exact Hvalid|]. unfold rerun.
  destruct (input_stage_cases input session) as [[Hnone _]|[_ ->]]; [done|].
  rewrite Hvalid. simpl. split.
  - by destruct (run_button_session model top_n
                   (store_accepted {| notice := accepted_notice 0; seq_ids := [];
                                      fasta_content := input_text input |} session) w)
      as [_ ->].
  - unfold run_button, store_accepted. simpl.
    destruct (process_fasta_and_run _ _ _ _ _ _ _) as [w' [x|results]]; [done|].
    simpl. destruct (report_and_assemble _ _ _ _) as [[shown table]|e|x]; done.
Qed.

(** X17. Run after run, the session holds either no text and no
    identifiers, or a text that passed validation together with the
    identifiers validation gave it: the run button never meets a text
    without its identifiers. *)
Theorem rerun_keeps_session_valid input clicked model top_n
    (session : session_state Score) w :
  session_valid parse_fasta parse_unite_fasta_header session →
  session_valid parse_fasta parse_unite_fasta_header (rerun (EngineFailure:=EngineFailure) parse_fasta parse_unite_fasta_header TAXONOMY_LEVELS search temp_name input clicked model top_n session w).1.1.
Proof.
  intros Hvalid. unfold rerun.
  destruct (input_stage parse_fasta parse_unite_fasta_header input session) as [session1|e|x] eqn:Hstage; [|done..].
  apply input_stage_valid in Hstage. destruct clicked; [|done].
  destruct (run_button_session model top_n session1 w) as [Hcontent Hids].
  unfold session_valid in *. by rewrite Hcontent, Hids.
Qed.

(** X18. In a run of the page the world only changes through one search,
    and that search is given the text that is in the input at that run,
    after that text passed validation: an input that was not validated in
    the same run never reaches the engine. *)
Theorem engine_only_sees_validated_input input clicked model top_n
    (session : session_state Score) w :
  (rerun (EngineFailure:=EngineFailure) parse_fasta parse_unite_fasta_header TAXONOMY_LEVELS search temp_name input clicked model top_n session w).1.2 = w
  ∨ (clicked = true
     ∧ input_given input
     ∧ ∃ accepted,
         validate_input parse_fasta parse_unite_fasta_header (input_text input) = Continue accepted
         ∧ (rerun (EngineFailure:=EngineFailure) parse_fasta parse_unite_fasta_header TAXONOMY_LEVELS search temp_name input clicked model top_n session w).1.2
           = (process_fasta_and_run _ EngineFailure search temp_name
                (input_text input) (model, top_n) w).1).
Proof.
  unfold rerun.
  destruct (input_stage_cases input session) as [[_ ->]|[Hgiven ->]].
  { destruct clicked; by left. }
  destruct (validate_input parse_fasta parse_unite_fasta_header (input_text input)) as [accepted|e|x] eqn:Hrun;
    simpl; [|by left..].
  destruct clicked; [|by left]. right. split_and!; [done..|].
  exists accepted. split; [done|].
  unfold run_button, store_accepted. simpl.
  rewrite (validate_input_content _ _ Hrun).
  destruct (process_fasta_and_run _ _ _ _ _ _ _) as [w' [x|results]]; [done|].
  simpl. destruct (report_and_assemble _ _ _ _) as [[shown table]|e|x]; done.
Qed.

(** X19. A run ends in [st.stop()] after a validation error exactly when
    something was entered and its validation stopped with that error;
    the session and the world are then as they were before the run.
    Nothing after validation stops the script that way. *)
Theorem halted_means_validation_stopped input clicked model top_n
    (session : session_state Score) w e :
  ((rerun (EngineFailure:=EngineFailure) parse_fasta parse_unite_fasta_header TAXONOMY_LEVELS search temp_name input clicked model top_n session w).2 = Halted e
   ↔ input_given input ∧ validate_input parse_fasta parse_unite_fasta_header (input_text input) = Stopped e)
  ∧ ((rerun (EngineFailure:=EngineFailure) parse_fasta parse_unite_fasta_header TAXONOMY_LEVELS search temp_name input clicked model top_n session w).2 = Halted e →
     (rerun (EngineFailure:=EngineFailure) parse_fasta parse_unite_fasta_header TAXONOMY_LEVELS search temp_name input clicked model top_n session w).1 = (session, w)).
Proof.
  unfold rerun.
  assert (∀ session1, (run_button (EngineFailure:=EngineFailure) TAXONOMY_LEVELS search temp_name model top_n session1 w).2 ≠ Halted e)
    as Hbutton.
  { intros session1. unfold run_button.
    destruct (st_fasta_content session1); [|done].
    destruct (process_fasta_and_run _ _ _ _ _ _ _) as [w' [x|results]]; [done|].
    destruct (st_seq_ids session1); [|done].
    destruct (report_and_assemble _ _ _ _) as [[shown table]|e'|x] eqn:Hrun;
      [done| |done].
    by destruct (report_and_assemble_never_stopped _ _ _ _ _ Hrun). }
  destruct (input_stage_cases input session) as [[Hnone ->]|[Hgiven ->]].
  { assert ((if clicked
             then run_button (EngineFailure:=EngineFailure) TAXONOMY_LEVELS
                    search temp_name model top_n clear_session w
             else (clear_session, w, Rendered [] (st_results_by_seq clear_session))).2
            ≠ Halted e) as Hnot.
    { destruct clicked; [apply Hbutton|done]. }
    split; [split|]; [done|by intros [? _]|done]. }
  destruct (validate_input parse_fasta parse_unite_fasta_header (input_text input))
    as [accepted|e'|x] eqn:Hrun; simpl.
  - assert ((if clicked
             then run_button (EngineFailure:=EngineFailure) TAXONOMY_LEVELS
                    search temp_name model top_n (store_accepted accepted session) w
             else (store_accepted accepted session, w,
                   Rendered [] (st_results_by_seq (store_accepted accepted session)))).2
            ≠ Halted e) as Hnot.
    { destruct clicked; [apply Hbutton|done]. }
    split; [split|]; [done|by intros [_ ?]|done].
  - split; [split|]; [by intros [= ->]|by intros [_ [= ->]]|done].
  - split; [split|]; [done|by intros [_ ?]|done].
Qed.

(** X20. The table of a search stays in the session and stays displayed
    when the visitor then enters another valid input without running the
    search again: the identifiers stored are those of the new input, the
    table shown is still the one of the earlier input. *)
Theorem earlier_results_stay_displayed input1 model1 top_n1
    (session0 session1 : session_state Score) w0 w1 shown table
    input2 model2 top_n2 accepted2 :
  rerun (EngineFailure:=EngineFailure) parse_fasta parse_unite_fasta_header TAXONOMY_LEVELS search temp_name input1 true model1 top_n1 session0 w0
  = (session1, w1, Rendered shown (Some table)) →
  input_given input2 →
  validate_input parse_fasta parse_unite_fasta_header (input_text input2) = Continue accepted2 →
  rerun (EngineFailure:=EngineFailure) parse_fasta parse_unite_fasta_header TAXONOMY_LEVELS search temp_name input2 false model2 top_n2 session1 w1
  = ({| st_seq_ids := Some (seq_ids accepted2);
        st_fasta_content := Some (input_text input2);
        st_results_by_seq := Some table |},
     w1, Rendered [] (Some table)).
Proof.
  intros Hfirst Hgiven Hvalid.
  assert (st_results_by_seq session1 = Some table) as Hkept.
  { unfold rerun in Hfirst.
    destruct (input_stage parse_fasta parse_unite_fasta_header input1 session0) as [s|e|x]; [|done..].
    unfold run_button in Hfirst.
    destruct (st_fasta_content s); [|done].
    destruct (process_fasta_and_run _ _ _ _ _ _ _) as [w' [x|results]]; [done|].
    destruct (st_seq_ids s); [|done].
    destruct (report_and_assemble _ _ _ _) as [[shown' table']|e|x]; [|done..].
    by injection Hfirst as <- _ _ <-. }
  unfold rerun.
  destruct (input_stage_cases input2 session1) as [[Hnone _]|[_ ->]]; [done|].
  rewrite Hvalid. simpl. unfold store_accepted.
  by rewrite Hkept, (validate_input_content _ _ Hvalid).
Qed.

(** X21. A valid input, a click, an engine that answers as promised and
    leaves the file where it is: the run ends with the table displayed and
    stored in the session beside the validated text and its identifiers;
    the table has the validated identifiers as keys, [top_n] records for
    each, is the one the assembler builds from the answer, and the
    temporary file is gone. *)
Theorem search_pipeline_end_to_end input model top_n
    (session : session_state Score) w accepted results first_level :
  let name := temp_name (files w) in
  let engine := search (<[name := input_text input]> (files w)) name
                  (model, top_n) in
  input_given input →
  validate_input parse_fasta parse_unite_fasta_header (input_text input) = Continue accepted →
  engine.2 = inr results →
  is_Some (engine.1 !! name) →
  engine_contract TAXONOMY_LEVELS results →
  TAXONOMY_LEVELS !! 0 = Some first_level →
  ∃ shown table w',
    rerun (EngineFailure:=EngineFailure) parse_fasta parse_unite_fasta_header TAXONOMY_LEVELS search temp_name input true model top_n session w
    = ({| st_seq_ids := Some (seq_ids accepted);
          st_fasta_content := Some (input_text input);
          st_results_by_seq := Some table |},
       w', Rendered shown (Some table))
    ∧ assemble TAXONOMY_LEVELS results (seq_ids accepted) top_n = Continue table
    ∧ dom table = list_to_set (seq_ids accepted)
    ∧ (∀ seq_id records, table !! seq_id = Some records → length records = top_n)
    ∧ (∀ per_seq, results !! first_level = Some per_seq →
                  length per_seq = length (seq_ids accepted) → shown = [])
    ∧ files w' = delete name engine.1.
Proof.
  intros name engine Hgiven Hvalid Hanswer [left_there Hleft] Hok Hfirst.
  destruct (assemble_table_keys TAXONOMY_LEVELS results
              (seq_ids accepted) top_n Hok) as (table & Htable & Hdom & Hlen).
  destruct (check_counts_total TAXONOMY_LEVELS results (seq_ids accepted)
              first_level Hok Hfirst) as (shown & Hshown & Hquiet).
  exists shown, table. eexists. split_and!; [|done..|].
  - unfold rerun.
    destruct (input_stage_cases input session) as [[Hnone _]|[_ ->]]; [done|].
    rewrite Hvalid. simpl. unfold run_button, store_accepted. simpl.
    rewrite (validate_input_content _ _ Hvalid).
    rewrite process_fasta_and_run_unfold. fold name. fold engine.
    rewrite Hleft, Hanswer. simpl.
    unfold report_and_assemble. rewrite Hshown. simpl. rewrite Htable. simpl.
    reflexivity.
  - done.
Qed.

End PageFacts.

Lemma rerun_keeps_session_valid_witness :
  session_valid Taxotagger.parse_fasta Taxotagger.parse_unite_fasta_header
    (sample_rerun (EnterText (sample_fasta 1)) true clear_session empty_world).1.1.
Proof.
  apply (rerun_keeps_session_valid Taxotagger.parse_fasta
           Taxotagger.parse_unite_fasta_header sample_levels sample_search
           sample_temp_name (EnterText (sample_fasta 1)) true "model" 2
           clear_session empty_world).
  exact I.
Defined.

Lemma halted_means_validation_stopped_witness :
  (sample_rerun (EnterText ">") true clear_session empty_world).2
  = Halted MalformedHeaderError
  ∧ (sample_rerun (EnterText ">") true clear_session empty_world).1
    = (clear_session, empty_world).
Proof.
  destruct (halted_means_validation_stopped Taxotagger.parse_fasta
              Taxotagger.parse_unite_fasta_header sample_levels sample_search
              sample_temp_name (EnterText ">") true "model" 2
              clear_session empty_world MalformedHeaderError)
    as [Hiff Hsame].
  assert ((sample_rerun (EnterText ">") true clear_session empty_world).2
          = Halted MalformedHeaderError) as Hhalt.
  { apply Hiff. split; [discriminate|vm_compute; reflexivity]. }
  split; [exact Hhalt|exact (Hsame Hhalt)].
Defined.

Lemma search_pipeline_end_to_end_witness :
  ∃ table w',
    sample_rerun (EnterText (sample_fasta 1)) true clear_session empty_world
    = ({| st_seq_ids := Some ["s0"];
          st_fasta_content := Some (sample_fasta 1);
          st_results_by_seq := Some table |},
       w', Rendered [] (Some table))
    ∧ dom table = {["s0"]}
    ∧ files w' = ∅.
Proof.
  destruct (validate (sample_fasta 1)) as [accepted|e|x] eqn:Hvalid;
    [|vm_compute in Hvalid; discriminate..].
  destruct (search_pipeline_end_to_end Taxotagger.parse_fasta
              Taxotagger.parse_unite_fasta_header sample_levels sample_search
              sample_temp_name (EnterText (sample_fasta 1)) "model" 2
              clear_session empty_world accepted sample_results "phylum")
    as (shown & table & w' & Hrun & _ & Hdom & _ & Hquiet & Hfiles).
  - vm_compute. discriminate.
  - exact Hvalid.
  - reflexivity.
  - vm_compute. eexists. reflexivity.
  - exact sample_results_contract.
  - reflexivity.
  - vm_compute in Hvalid. injection Hvalid as <-. simpl in *.
    exists table, w'. split_and!.
    + unfold sample_rerun. rewrite Hrun.
      rewrite (Hquiet [[sample_match]]); [reflexivity|vm_compute; reflexivity|reflexivity].
    + rewrite Hdom. vm_compute. reflexivity.
    + rewrite Hfiles. vm_compute. reflexivity.
Defined.

(** The first run of the sample page, computed. *)
Lemma sample_first_run :
  ∃ session1 w1 table,
    sample_rerun (EnterText (sample_fasta 1)) true clear_session empty_world
    = (session1, w1, Rendered [] (Some table)).
Proof. vm_compute. do 3 eexists. reflexivity. Qed.

Lemma earlier_results_stay_displayed_witness :
  ∃ session1 w1 table,
    sample_rerun (EnterText (sample_fasta 1)) true clear_session empty_world
    = (session1, w1, Rendered [] (Some table))
    ∧ sample_rerun (EnterText (">KY1 Fungi" +:+ String newline "ACGT")) false
        session1 w1
      = ({| st_seq_ids := Some ["KY1"];
            st_fasta_content := Some (">KY1 Fungi" +:+ String newline "ACGT");
            st_results_by_seq := Some table |},
         w1, Rendered [] (Some table)).
Proof.
  destruct sample_first_run as (session1 & w1 & table & Hfirst).
  exists session1, w1, table. split; [exact Hfirst|].
  apply (earlier_results_stay_displayed Taxotagger.parse_fasta
           Taxotagger.parse_unite_fasta_header sample_levels sample_search
           sample_temp_name (EnterText (sample_fasta 1)) "model" 2
           clear_session session1 empty_world w1 [] table
           (EnterText (">KY1 Fungi" +:+ String newline "ACGT")) "model" 2
           {| notice := accepted_notice 1; seq_ids := ["KY1"];
              fasta_content := ">KY1 Fungi" +:+ String newline "ACGT" |}).
  - exact Hfirst.
  - discriminate.
  - vm_compute. reflexivity.
Defined.

Lemma input_without_records_is_searched_witness :
  validate "ACGT"
  = Continue {| notice := accepted_notice 0; seq_ids := []; fasta_content := "ACGT" |}
  ∧ trace (sample_rerun (EnterText "ACGT") true clear_session empty_world).1.2
    = [Created "/tmp/tmp0.fasta"; Written "/tmp/tmp0.fasta" "ACGT";
       Flushed "/tmp/tmp0.fasta"; Searched "/tmp/tmp0.fasta" (Some "ACGT");
       Unlinked "/tmp/tmp0.fasta"; Closed "/tmp/tmp0.fasta"].
Proof.
  destruct (input_without_records_is_searched Taxotagger.parse_fasta
              Taxotagger.parse_unite_fasta_header sample_levels sample_search
              sample_temp_name (EnterText "ACGT") "model" 2
              clear_session empty_world) as (Hvalid & _ & Hworld).
  - discriminate.
  - vm_compute. reflexivity.
  - split; [exact Hvalid|].
    unfold sample_rerun. rewrite Hworld. vm_compute. reflexivity.
Defined.
